(** * tsh: the job registry and job control of the tiny shell (src/tsh.c)

    A shallow embedding of the job table, of the command-line parser, of
    the built-in dispatcher, of the parent side of [eval], of [waitfg], of
    the three signal handlers and of the signal-safe number printing,
    followed by the properties of the job-control engine.

    Conventions of the embedding.
    - [int] and [pid_t] values are [Z]; the overflow of a C [int] is not
      modelled (the job-id counter would have to pass 2^31 - 1).
    - The array [jobs[MAXJOBS]] is a [list job_t] of length [MAXJOBS]; a
      pointer [&jobs[i]] is the index [i]; [NULL] is [None].
    - Functions returning the C truth values 1 / 0 return [bool].
    - [printf] appends to the field [stdout]; every [kill] call is recorded
      in the field [kills]. *)

From Stdlib Require Import ZArith String Ascii DecimalString DecimalPos DecimalZ.
From stdpp Require Import base tactics option list numbers relations.

Local Open Scope string_scope.
Local Open Scope Z_scope.

(** ** Manifest constants and the job record *)

Definition MAXJOBS : nat := 16.

(** Job states: the four [#define]d values stored in [job_t.state]. *)
Inductive jstate : Set := UNDEF | FG | BG | ST.

Record job_t : Set := mk_job {
  pid : Z;          (* job PID *)
  jid : Z;          (* job ID [1, 2, ...] *)
  state : jstate;   (* UNDEF, BG, FG, or ST *)
  cmdline : string  (* command line *)
}.

Definition jstate_eqb (a b : jstate) : bool :=
  match a, b with
  | UNDEF, UNDEF | FG, FG | BG, BG | ST, ST => true
  | _, _ => false
  end.

(** The signals the shell forwards with [kill]. *)
Inductive signal : Set := SIGINT | SIGTSTP.

(** The process-wide state: the globals [jobs], [nextjid], [verbose], and
    the two observable effect logs. *)
Record shell : Type := mk_shell {
  jobs : list job_t;
  nextjid : Z;
  verbose : bool;
  stdout : string;
  kills : list (Z * signal)
}.

Definition set_jobs (st : shell) (js : list job_t) : shell :=
  mk_shell js (nextjid st) (verbose st) (stdout st) (kills st).
Definition set_nextjid (st : shell) (n : Z) : shell :=
  mk_shell (jobs st) n (verbose st) (stdout st) (kills st).
Definition printf (st : shell) (s : string) : shell :=
  mk_shell (jobs st) (nextjid st) (verbose st) (stdout st ++ s) (kills st).
Definition kill (st : shell) (target : Z) (sig : signal) : shell :=
  mk_shell (jobs st) (nextjid st) (verbose st) (stdout st) (kills st ++ [(target, sig)]).

(** [%d] of printf. *)
Definition fmt_d (z : Z) : string := NilZero.string_of_int (Z.to_int z).

Definition nl : string := String (ascii_of_nat 10) EmptyString.

(** ** Helper routines that manipulate the job list *)

(** clearjob - Clear the entries in a job struct *)
Definition clearjob (job : job_t) : job_t :=
  {| pid := 0; jid := 0; state := UNDEF; cmdline := EmptyString |}.

(** initjobs - Initialize the job list *)
Definition initjobs : list job_t := replicate MAXJOBS (clearjob (mk_job 0 0 UNDEF EmptyString)).

(** The scan shared by the table loops
    [for (i = 0; i < MAXJOBS; i++) if (test(jobs[i])) ...]: the index of the
    first slot that passes [test]. *)
Fixpoint first_slot (test : job_t -> bool) (js : list job_t) : option nat :=
  match js with
  | [] => None
  | j :: js' => if test j then Some 0%nat else S <$> first_slot test js'
  end.

(** maxjid - Returns largest allocated job ID *)
Definition maxjid (js : list job_t) : Z :=
  foldl (fun max j => if jid j >? max then jid j else max) 0 js.

(** addjob - Add a job to the job list *)
Definition addjob (st : shell) (p : Z) (s : jstate) (cmd : string) : bool * shell :=
  if p <? 1 then (false, st)
  else
    match first_slot (fun j => pid j =? 0) (jobs st) with
    | Some i =>
        let job := {| pid := p; jid := nextjid st; state := s; cmdline := cmd |} in
        let n := nextjid st + 1 in
        let n := if n >? Z.of_nat MAXJOBS then 1 else n in
        let st1 := set_nextjid (set_jobs st (<[i := job]> (jobs st))) n in
        let st2 :=
          if verbose st
          then printf st1 ("Added job [" ++ fmt_d (jid job) ++ "] " ++ fmt_d (pid job)
                           ++ " " ++ cmdline job ++ nl)
          else st1 in
        (true, st2)
    | None => (false, printf st ("Tried to create too many jobs" ++ nl))
    end.

(** deletejob - Delete a job whose PID=pid from the job list *)
Definition deletejob (st : shell) (p : Z) : bool * shell :=
  if p <? 1 then (false, st)
  else
    match first_slot (fun j => pid j =? p) (jobs st) with
    | Some i =>
        let js := alter clearjob i (jobs st) in
        (true, set_nextjid (set_jobs st js) (maxjid js + 1))
    | None => (false, st)
    end.

(** fgpid - Return PID of current foreground job, 0 if no such job *)
Definition fgpid (js : list job_t) : Z :=
  match first_slot (fun j => jstate_eqb (state j) FG) js with
  | Some i => from_option pid 0 (js !! i)
  | None => 0
  end.

(** getjobpid - Find a job (by PID) on the job list *)
Definition getjobpid (js : list job_t) (p : Z) : option nat :=
  if p <? 1 then None else first_slot (fun j => pid j =? p) js.

(** getjobjid - Find a job (by JID) on the job list *)
Definition getjobjid (js : list job_t) (j : Z) : option nat :=
  if j <? 1 then None else first_slot (fun job => jid job =? j) js.

(** pid2jid - Map process ID to job ID *)
Definition pid2jid (js : list job_t) (p : Z) : Z :=
  if p <? 1 then 0
  else match first_slot (fun j => pid j =? p) js with
       | Some i => from_option jid 0 (js !! i)
       | None => 0
       end.

(** listjobs - Print the job list *)
Definition listjobs_line (i : nat) (j : job_t) : string :=
  if pid j =? 0 then EmptyString
  else "[" ++ fmt_d (jid j) ++ "] (" ++ fmt_d (pid j) ++ ") "
       ++ match state j with
          | BG => "Running "
          | FG => "Foreground "
          | ST => "Stopped "
          | UNDEF => "listjobs: Internal error: job[" ++ fmt_d (Z.of_nat i)
                     ++ "].state=" ++ fmt_d 0 ++ " "
          end
       ++ cmdline j.

Definition listjobs (st : shell) : shell :=
  printf st (String.concat EmptyString (imap listjobs_line (jobs st))).

(** ** Character and string functions of libc used by the dispatcher *)

Definition code (c : ascii) : Z := Z.of_N (N_of_ascii c).

Definition isdigit (c : ascii) : bool := (48 <=? code c) && (code c <=? 57).

Definition isspace (c : ascii) : bool :=
  (code c =? 32) || ((9 <=? code c) && (code c <=? 13)).

(** [s[0]]: the first character, the terminating NUL for the empty string. *)
Definition char0 (s : string) : ascii :=
  match s with
  | String c _ => c
  | EmptyString => zero
  end.

(** [&s[1]]. *)
Definition from1 (s : string) : string :=
  match s with
  | String _ s' => s'
  | EmptyString => EmptyString
  end.

Fixpoint atoi_digits (s : string) (acc : Z) : Z :=
  match s with
  | String c s' => if isdigit c then atoi_digits s' (acc * 10 + (code c - 48)) else acc
  | EmptyString => acc
  end.

Fixpoint skip_space (s : string) : string :=
  match s with
  | String c s' => if isspace c then skip_space s' else s
  | EmptyString => s
  end.

(** The number a string writes, as [strtol] reads it in base 10: leading
    white space, an optional sign, then the decimal digits. *)
Definition decimal_value (s : string) : Z :=
  match skip_space s with
  | String "-"%char s' => - atoi_digits s' 0
  | String "+"%char s' => atoi_digits s' 0
  | s' => atoi_digits s' 0
  end.

(** The ranges of [long] (64 bits) and of [int] (32 bits). *)
Definition LONG_MAX : Z := 9223372036854775807.
Definition LONG_MIN : Z := -9223372036854775808.
Definition INT_MAX : Z := 2147483647.
Definition INT_MIN : Z := -2147483648.

(** [strtol(s, NULL, 10)]: the number written, [LONG_MAX] or [LONG_MIN] when
    it does not fit a [long]. *)
Definition strtol (s : string) : Z :=
  Z.max LONG_MIN (Z.min LONG_MAX (decimal_value s)).

(** The conversion of a [long] to [int]: the low 32 bits, read as a signed
    number. *)
Definition int_of_long (z : Z) : Z :=
  (z + 2 ^ 31) mod 2 ^ 32 - 2 ^ 31.

(** atoi: [(int) strtol(s, NULL, 10)].  The result is an [int]: a number
    that does not fit wraps around (4294967301 is read as 5, 2147483648 as
    -2147483648). *)
Definition atoi (s : string) : Z :=
  int_of_long (strtol s).

(** ** The built-in dispatcher, the evaluator and the waiter *)

(** Where control is when [eval] (or [builtin_cmd]) is done with the state. *)
Inductive control : Type :=
  | Returned (st : shell)           (* back in the read loop *)
  | Waitfg (st : shell) (p : Z)     (* inside [waitfg(p)], then back in the read loop *)
  | Exit (st : shell) (status : Z)  (* [exit(status)] *)
  | Execve (st : shell).            (* the child now runs the requested program *)

(** What [fork()] returned, and in the child what [execve] did. *)
Inductive fork_t : Type :=
  | Fork_error (strerror : string)  (* [fork() < 0] *)
  | Fork_child (execve_failed : bool)
  | Fork_parent (chld_pid : Z).

Section Dispatcher.

(** tsh.c:334 calls [strcmp(argv[1][0])], with one character where [strcmp]
    takes two strings.  C gives this call no meaning; its value is left
    abstract and everything below holds for every choice of it. *)
Variable strcmp1 : ascii -> Z.

(** do_bgfg - Execute the builtin bg and fg commands *)
Definition do_bgfg (st : shell) (argv : list string) : shell :=
  let argv0 := default EmptyString (argv !! 0%nat) in
  match argv !! 1%nat with
  | None =>                      (* bg and fg must have an argument *)
      printf st (argv0 ++ " command requires PID or %jobid argument" ++ nl)
  | Some argv1 =>
      if negb (isdigit (char0 argv1) || (strcmp1 (char0 argv1) =? 0))
      then printf st (argv0 ++ ": argument must be a PID or %jobid" ++ nl)
      else
        let job :=
          if isdigit (char0 argv1)
          then                   (* Get job by PID *)
            match getjobpid (jobs st) (atoi argv1) with
            | None => inl (printf st ("(" ++ fmt_d (atoi argv1) ++ "): No such process" ++ nl))
            | Some i => inr i
            end
          else
            match getjobjid (jobs st) (atoi (from1 argv1)) with
            | None => inl (printf st (argv1 ++ ": No such job" ++ nl))
            | Some i => inr i
            end in
        match job with
        | inl st' => st'         (* return after the not-found message *)
        | inr _ =>
            if String.eqb argv0 "bg"
            then st              (* Background: empty block *)
            else st              (* Foreground: empty block *)
        end
  end.

(** builtin_cmd - If the user has typed a built-in command then execute
    it immediately.  [None] is the return value 0 (not a builtin command). *)
Definition builtin_cmd (st : shell) (argv : list string) : option control :=
  let argv0 := default EmptyString (argv !! 0%nat) in
  if String.eqb argv0 "quit" || String.eqb argv0 "jobs"
     || String.eqb argv0 "fg" || String.eqb argv0 "bg"
  then
    if String.eqb argv0 "quit" then Some (Exit st 0)
    else if String.eqb argv0 "jobs" then Some (Returned (listjobs st))
    else Some (Returned (do_bgfg st argv))
  else None.

(** eval - Evaluate the command line that the user has just typed in.
    [argv] and [bg] are the results of [parseline]; [fk] is what [Fork()]
    returns.  The signal mask calls make the segment from [Fork] to the end
    of [addjob] atomic with respect to the handlers, which is how the
    function is modelled: as one step up to the call of [waitfg]. *)
Definition eval (st : shell) (cmdline : string) (argv : list string) (bg : bool)
    (fk : fork_t) : control :=
  match argv with
  | [] => Returned st            (* Ignore Empty Lines *)
  | argv0 :: _ =>
      match builtin_cmd st argv with
      | Some c => c
      | None =>
          match fk with
          | Fork_error strerror => Exit (printf st ("Fork error: " ++ strerror ++ nl)) 1
          | Fork_child execve_failed =>
              if execve_failed
              then Exit (printf st (argv0 ++ ": Command not found." ++ nl)) 0
              else Execve st
          | Fork_parent chld_pid =>
              if bg
              then                (* Background *)
                let st1 := snd (addjob st chld_pid BG cmdline) in
                Returned (printf st1 ("[" ++ fmt_d (nextjid st1 - 1) ++ "] ("
                                      ++ fmt_d chld_pid ++ ") " ++ cmdline))
              else                (* Foreground *)
                let st1 := snd (addjob st chld_pid FG cmdline) in
                Waitfg st1 chld_pid
          end
      end
  end.

End Dispatcher.

(** waitfg - Block until process pid is no longer the foreground process.

    The function only reads the table, so it is a machine over the program
    points of its two loops; the table it reads is an argument of each step
    because the handlers change the table while the function sleeps. *)
Inductive waitfg_pc : Set :=
  | Lookup              (* top of the outer loop: [job = getjobpid(jobs, pid)] *)
  | Inner (i : nat).    (* top of the inner loop with [job == &jobs[i]] *)

Inductive waitfg_act : Set :=
  | Goto (pc : waitfg_pc)
  | Sleep (i : nat)     (* [sleep(1)], then the inner loop again *)
  | Return.

Definition waitfg_step (js : list job_t) (p : Z) (pc : waitfg_pc) : waitfg_act :=
  match pc with
  | Lookup =>
      match getjobpid js p with
      | None => Return             (* No job found with specified PID *)
      | Some i => Goto (Inner i)
      end
  | Inner i =>
      match js !! i with
      | Some job =>
          if negb (pid job =? p) then Goto Lookup          (* break *)
          else if negb (jstate_eqb (state job) FG) then Return
          else Sleep i
      | None => Goto Lookup        (* no pointer leaves the table *)
      end
  end.

(** One wake-up of [waitfg]: run from [pc] on the table [js] until the
    function returns ([None]) or goes to sleep holding [&jobs[i]]
    ([Some i]).  [fuel] bounds the number of loop tests. *)
Fixpoint waitfg_poll (fuel : nat) (js : list job_t) (p : Z) (pc : waitfg_pc)
    : option (option nat) :=
  match fuel with
  | O => None
  | S fuel' =>
      match waitfg_step js p pc with
      | Return => Some None
      | Sleep i => Some (Some i)
      | Goto pc' => waitfg_poll fuel' js p pc'
      end
  end.

(** [waitfg(p)] against the tables [js :: later] it finds at its successive
    wake-ups: [Some k] when it returns after sleeping [k] times, [None] when
    it is still asleep after the last table. *)
Fixpoint waitfg (p : Z) (pc : waitfg_pc) (tables : list (list job_t)) : option nat :=
  match tables with
  | [] => None
  | js :: later =>
      match waitfg_poll 3 js p pc with
      | Some None => Some 0%nat
      | Some (Some i) => S <$> waitfg p (Inner i) later
      | None => None
      end
  end.

(** ** Signal handlers *)

(** The status [waitpid] reports with [WUNTRACED | WNOHANG]. *)
Inductive wstatus : Set :=
  | WIFSTOPPED (WSTOPSIG : Z)
  | WIFSIGNALED (WTERMSIG : Z)
  | WIFEXITED (WEXITSTATUS : Z).

Definition set_state (s : jstate) (j : job_t) : job_t :=
  {| pid := pid j; jid := jid j; state := s; cmdline := cmdline j |}.

(** The body of the handler's loop for one reported child.  [None] is the
    dereference of the null pointer that [getjobpid] returned. *)
Definition sigchld_child (st : shell) (wait_pid : Z) (chld_status : wstatus)
    : option shell :=
  match chld_status with
  | WIFSTOPPED sig =>            (* Child stopped *)
      let st1 := printf st ("Job [" ++ fmt_d (pid2jid (jobs st) wait_pid) ++ "] ("
                            ++ fmt_d wait_pid ++ ") stopped by signal " ++ fmt_d sig ++ nl) in
      match getjobpid (jobs st1) wait_pid with
      | Some i => Some (set_jobs st1 (alter (set_state ST) i (jobs st1)))
      | None => None
      end
  | WIFSIGNALED sig =>           (* Child terminated by uncaught signal *)
      let st1 := printf st ("Job [" ++ fmt_d (pid2jid (jobs st) wait_pid) ++ "] ("
                            ++ fmt_d wait_pid ++ ") terminated by signal " ++ fmt_d sig ++ nl) in
      Some (snd (deletejob st1 wait_pid))
  | WIFEXITED _ =>               (* Child exited "normally" *)
      Some (snd (deletejob st wait_pid))
  end.

(** sigchld_handler: [reports] are the successive results of [waitpid]; the
    loop ends at the first result below 1 (or when the reports end). *)
Fixpoint sigchld_handler (st : shell) (reports : list (Z * wstatus)) : option shell :=
  match reports with
  | [] => Some st
  | (wait_pid, chld_status) :: rest =>
      if wait_pid <? 1 then Some st
      else st' ← sigchld_child st wait_pid chld_status; sigchld_handler st' rest
  end.

(** sigint_handler - forward SIGINT to the foreground job. *)
Definition sigint_handler (st : shell) : shell :=
  let int_pid := fgpid (jobs st) in     (* Get foreground PID *)
  kill st (- int_pid) SIGINT.           (* Send SIGINT *)

(** sigtstp_handler - forward SIGTSTP to the foreground job. *)
Definition sigtstp_handler (st : shell) : shell :=
  let tstp_pid := fgpid (jobs st) in    (* Get foreground PID *)
  kill st (- tstp_pid) SIGTSTP.         (* Send SIGTSTP *)

(** ** The shell as a transition system *)

(** The state [main] starts from, after [initjobs(jobs)]. *)
Definition init_shell (v : bool) : shell :=
  mk_shell initjobs 1 v EmptyString [].

(** Where the main control flow is: reading the next command line, or
    inside [waitfg(p)] at program point [pc]. *)
Inductive mode : Set :=
  | Reading
  | Waiting (p : Z) (pc : waitfg_pc).

(** What the operating system guarantees of [fork]: the parent gets the id
    of a new process, at least 1 and different from the id of every child
    that has not been reaped, hence of every job in the table. *)
Definition fork_fresh (js : list job_t) (fk : fork_t) : Prop :=
  match fk with
  | Fork_parent p => 1 <= p /\ Forall (fun j => pid j <> p) js
  | _ => True
  end.

(** The steps of the main control flow: the read loop evaluates a command
    line, or [waitfg] wakes up and either returns or sleeps again. *)
Inductive main_step : shell * mode -> shell * mode -> Prop :=
  | step_eval_returned strcmp1 st cmd argv bg fk st' :
      fork_fresh (jobs st) fk ->
      eval strcmp1 st cmd argv bg fk = Returned st' ->
      main_step (st, Reading) (st', Reading)
  | step_eval_waitfg strcmp1 st cmd argv bg fk st' p :
      fork_fresh (jobs st) fk ->
      eval strcmp1 st cmd argv bg fk = Waitfg st' p ->
      main_step (st, Reading) (st', Waiting p Lookup)
  | step_waitfg_return st p pc :
      waitfg_poll 3 (jobs st) p pc = Some None ->
      main_step (st, Waiting p pc) (st, Reading)
  | step_waitfg_sleep st p pc i :
      waitfg_poll 3 (jobs st) p pc = Some (Some i) ->
      main_step (st, Waiting p pc) (st, Waiting p (Inner i)).

(** The steps of the three handlers, which run at any time. *)
Inductive handler_step : shell * mode -> shell * mode -> Prop :=
  | step_sigchld st md reports st' :
      sigchld_handler st reports = Some st' ->
      handler_step (st, md) (st', md)
  | step_sigint st md :
      handler_step (st, md) (sigint_handler st, md)
  | step_sigtstp st md :
      handler_step (st, md) (sigtstp_handler st, md).

Definition step (s s' : shell * mode) : Prop :=
  main_step s s' \/ handler_step s s'.

Definition reachable (s : shell * mode) : Prop :=
  exists v, rtc step (init_shell v, Reading) s.

(** ** Predicates on the table *)

(** An active (non-empty) slot. *)
Definition active (j : job_t) : Prop := pid j <> 0.

Definition cleared (j : job_t) : Prop :=
  pid j = 0 /\ jid j = 0 /\ state j = UNDEF.

Definition slot_ok (j : job_t) : Prop :=
  cleared j \/ (1 <= pid j /\ 1 <= jid j /\ state j <> UNDEF).

Global Instance jstate_eq_dec : EqDecision jstate.
Proof. solve_decision. Defined.

Global Instance slot_ok_dec j : Decision (slot_ok j).
Proof. unfold slot_ok, cleared. apply _. Defined.

Definition active_pids (js : list job_t) : list Z :=
  pid <$> filter active js.

(** The processId is unique among the active slots. *)
Definition unique_pids (js : list job_t) : Prop :=
  forall i1 i2 j1 j2,
    js !! i1 = Some j1 -> js !! i2 = Some j2 ->
    active j1 -> pid j1 = pid j2 -> i1 = i2.

Definition wf_table (js : list job_t) : Prop :=
  Forall slot_ok js /\ unique_pids js.

(** The shape every state of the running shell has. *)
Record wf (st : shell) : Prop := mk_wf {
  wf_length : length (jobs st) = MAXJOBS;
  wf_slots : Forall slot_ok (jobs st);
  wf_pids : unique_pids (jobs st);
  wf_nextjid : 1 <= nextjid st
}.

(** The return condition of [waitfg(p)] in the words of its specification:
    no job of the table has the pid [p], or the job that has it is not in
    the Foreground state. *)
Definition fg_done (js : list job_t) (p : Z) : Prop :=
  (forall i j, js !! i = Some j -> active j -> pid j <> p) \/
  (exists i j, js !! i = Some j /\ active j /\ pid j = p /\ state j <> FG).

(** What holds of the table at each point of the main control flow: between
    two command lines no job is Foreground; inside [waitfg(p)] only the job
    [p] can be. *)
Definition mode_ok (js : list job_t) (md : mode) : Prop :=
  match md with
  | Reading => Forall (fun j => state j <> FG) js
  | Waiting p _ => 1 <= p /\ Forall (fun j => state j = FG -> pid j = p) js
  end.

(** At most one active job has state Foreground. *)
Definition at_most_one_fg (js : list job_t) : Prop :=
  forall i1 i2 j1 j2,
    js !! i1 = Some j1 -> js !! i2 = Some j2 ->
    active j1 -> active j2 -> state j1 = FG -> state j2 = FG ->
    i1 = i2.

Definition no_fg (js : list job_t) : Prop :=
  Forall (fun j => state j <> FG) js.

(** The invariant of the transition system. *)
Definition shell_inv (s : shell * mode) : Prop :=
  wf s.1 /\ mode_ok (jobs s.1) s.2.

(** The largest jobId among the active slots, 0 when there is none. *)
Definition max_active_jid (js : list job_t) : Z :=
  foldr Z.max 0 (jid <$> filter active js).

(** The jobId stored by [addjob st p s cmd] in the slot it fills. *)
Definition addjob_jid (st : shell) (p : Z) (s : jstate) (cmd : string) : option Z :=
  let '(ok, st') := addjob st p s cmd in
  if ok
  then i ← first_slot (fun j => pid j =? 0) (jobs st); jid <$> jobs st' !! i
  else None.

(** Consecutive [addjob] calls; the jobIds they assign, [None] as soon as
    one of them fails. *)
Fixpoint addjobs (st : shell) (reqs : list (Z * jstate * string)) : option (list Z) :=
  match reqs with
  | [] => Some []
  | (p, s, cmd) :: reqs' =>
      j ← addjob_jid st p s cmd;
      js ← addjobs (snd (addjob st p s cmd)) reqs';
      Some (j :: js)
  end.

Definition strictly_increasing (l : list Z) : Prop :=
  forall i j a b, l !! i = Some a -> l !! j = Some b -> (i < j)%nat -> a < b.

(** The two forms of argument the claim names. *)
Fixpoint all_digits (s : string) : bool :=
  match s with
  | EmptyString => true
  | String c s' => isdigit c && all_digits s'
  end.

Definition digit_string (s : string) : bool :=
  negb (String.eqb s EmptyString) && all_digits s.


(** A table holding [MAXJOBS] active jobs. *)
Definition table_full (js : list job_t) : Prop :=
  length js = MAXJOBS /\ Forall active js.

(** ** The command-line parser *)

Definition MAXLINE : nat := 1024.

(** [strchr(buf, c)]: the text before the first [c] and the text after it,
    [None] (the null pointer) when [c] does not occur in [buf]. *)
Fixpoint strchr (buf : string) (c : ascii) : option (string * string) :=
  match buf with
  | EmptyString => None
  | String a buf' =>
      if Ascii.eqb a c then Some (EmptyString, buf')
      else (fun tr => (String a (fst tr), snd tr)) <$> strchr buf' c
  end.

(** [while ( *buf && ( *buf == ' ')) buf++;] *)
Fixpoint skip_blanks (buf : string) : string :=
  match buf with
  | String a buf' => if Ascii.eqb a " "%char then skip_blanks buf' else buf
  | EmptyString => buf
  end.

(** [buf[strlen(buf)-1] = ' ';] on a non-empty string. *)
Fixpoint set_last_blank (buf : string) : string :=
  match buf with
  | EmptyString => EmptyString
  | String a EmptyString => String " "%char EmptyString
  | String a buf' => String a (set_last_blank buf')
  end.

(** The search for the end of the argument that starts at [buf]: after a
    single quote the next single quote, otherwise the next space. *)
Definition find_delim (buf : string) : option (string * string) :=
  match buf with
  | String "'"%char buf' => strchr buf' "'"%char
  | _ => strchr buf " "%char
  end.

(** The loop [while (delim) { argv[argc++] = buf; ... }]: the arguments in
    the order they are stored.  [fuel] bounds the number of loop tests;
    [None] when it is used up. *)
Fixpoint parse_args (fuel : nat) (buf : string) : option (list string) :=
  match fuel with
  | O => None
  | S fuel' =>
      match find_delim buf with
      | None => Some []
      | Some (arg, rest) => cons arg <$> parse_args fuel' (skip_blanks rest)
      end
  end.

(** parseline - Parse the command line and build the argv array.  The
    result is [argv] and the return value (true: a BG job is requested).
    [None] stands for the two uses the C function leaves undefined: the
    empty string (the write to [buf[-1]]) and a string that does not fit
    the array of [MAXLINE] characters. *)
Definition parseline (cmdline : string) : option (list string * bool) :=
  if (String.length cmdline =? 0)%nat || (MAXLINE <=? String.length cmdline)%nat
  then None
  else
    let buf := skip_blanks (set_last_blank cmdline) in
    argv ← parse_args (S (String.length buf)) buf;
    match last argv with
    | None => Some ([], true)        (* ignore blank line *)
    | Some a =>
        if Ascii.eqb (char0 a) "&"%char
        then Some (removelast argv, true)
        else Some (argv, false)
    end.

(** [eval] from the command line on, with its call of [parseline]. *)
Definition eval_cmdline (strcmp1 : ascii -> Z) (st : shell) (cmdline : string)
    (fk : fork_t) : option control :=
  match parseline cmdline with
  | Some (argv, bg) => Some (eval strcmp1 st cmdline argv bg fk)
  | None => None
  end.

(** ** The signal-safe output helpers *)

(** The loop of [sio_reverse]: [for (...; i < j; i++, j--)] swaps [s[i]]
    and [s[j]]. *)
Fixpoint sio_reverse_loop (fuel : nat) (i j : Z) (s : list ascii) : option (list ascii) :=
  match fuel with
  | O => None
  | S fuel' =>
      if i <? j
      then
        match s !! Z.to_nat i, s !! Z.to_nat j with
        | Some a, Some b =>
            sio_reverse_loop fuel' (i + 1) (j - 1)
              (<[Z.to_nat j := a]> (<[Z.to_nat i := b]> s))
        | _, _ => None
        end
      else Some s
  end.

(** sio_reverse - Reverse a string (from K&R) *)
Definition sio_reverse (s : list ascii) : option (list ascii) :=
  sio_reverse_loop (S (length s)) 0 (Z.of_nat (length s) - 1) s.

(** The character stored for the digit value [c]:
    [(c < 10) ? c + '0' : c - 10 + 'a'], as a [char]. *)
Definition sio_digit (c : Z) : ascii :=
  ascii_of_N (Z.to_N ((if c <? 10 then c + 48 else c - 10 + 97) mod 256)).

(** The loop [do { s[i++] = ...; } while ((v /= b) > 0);]: the characters
    in the order they are stored.  C division truncates ([Z.quot],
    [Z.rem]). *)
Fixpoint sio_ltoa_loop (fuel : nat) (v b : Z) : option (list ascii) :=
  match fuel with
  | O => None
  | S fuel' =>
      let c := Z.rem v b in
      let v' := Z.quot v b in
      if v' >? 0
      then cons (sio_digit c) <$> sio_ltoa_loop fuel' v' b
      else Some [sio_digit c]
  end.

(** sio_ltoa - Convert long to base b string (from K&R).  [None] for the
    division by [b = 0] and for the loop that does not end ([b = 1] with
    [v > 0]); the fuel, more loop tests than [|v|] has binary digits, is
    enough in every other case. *)
Definition sio_ltoa (v b : Z) : option string :=
  if b =? 0 then None
  else
    ds ← sio_ltoa_loop (S (S (Z.to_nat (Z.log2 (Z.abs v))))) v b;
    string_of_list_ascii <$> sio_reverse ds.

(** ** Lines of the [jobs] listing *)

(** The line of the listing for an active job, in the words of the output
    format: [[jobId] (pid) <Running|Foreground|Stopped> commandLine]. *)
Definition job_line (j : job_t) : string :=
  "[" ++ fmt_d (jid j) ++ "] (" ++ fmt_d (pid j) ++ ") "
  ++ match state j with
     | BG => "Running "
     | FG => "Foreground "
     | ST => "Stopped "
     | UNDEF => EmptyString
     end
  ++ cmdline j.

(** The words of a command line joined by single spaces. *)
Fixpoint join_words (ws : list string) : string :=
  match ws with
  | [] => EmptyString
  | w :: ws' => w ++ " " ++ join_words ws'
  end.

(** [lacks c s]: the character [c] does not occur in [s]. *)
Fixpoint lacks (c : ascii) (s : string) : bool :=
  match s with
  | EmptyString => true
  | String a s' => negb (Ascii.eqb a c) && lacks c s'
  end.

(** How an argument [w] can be written on the command line: as it is when
    it is not empty, has no space and does not start with a quote; or
    between single quotes when it has no single quote. *)
Definition written_as (r w : string) : Prop :=
  (w <> EmptyString /\ lacks " "%char w = true /\ char0 w <> "'"%char /\ r = w) \/
  (lacks "'"%char w = true /\ r = String "'"%char (w ++ "'")).

(** [n] spaces. *)
Fixpoint blanks (n : nat) : string :=
  match n with
  | O => EmptyString
  | S n' => String " "%char (blanks n')
  end.

(** The value of a string of decimal digits written with the last digit
    first. *)
Fixpoint value_le (ds : list ascii) : Z :=
  match ds with
  | [] => 0
  | d :: ds' => (code d - 48) + 10 * value_le ds'
  end.

(** ** Concrete runs of the shell, used as inputs below *)

(** The reading of the call at tsh.c:334 that the messages of [do_bgfg]
    suggest: the comparison of the character with the percent sign. *)
Definition strcmp_percent (c : ascii) : Z :=
  if Ascii.eqb c "%"%char then 0 else 1.

Definition sleep_bg : string := "/bin/sleep 5 &" ++ nl.
Definition sleep_fg : string := "/bin/sleep 5" ++ nl.

(** The shell after [eval] of a command line that runs [/bin/sleep 5] as the
    new child [p], in the background or in the foreground. *)
Definition spawn (bg : bool) (st : shell) (p : Z) : shell :=
  match eval strcmp_percent st (if bg then sleep_bg else sleep_fg)
             ["/bin/sleep"; "5"] bg (Fork_parent p) with
  | Returned st' | Waitfg st' _ => st'
  | Exit _ _ | Execve _ => st
  end.

(** [n] background jobs with the process ids 101, 102, ... *)
Definition bg_jobs (n : nat) : shell :=
  foldl (spawn true) (init_shell false) (Z.of_nat <$> seq 101 n).

(** One job, process 5, started in the foreground and then stopped by
    SIGTSTP (signal 20). *)
Definition stopped_5 : shell :=
  default (init_shell false)
    (sigchld_handler (spawn false (init_shell false) 5) [(5, WIFSTOPPED 20)]).

(** Fifteen background jobs, of which the first has exited: fourteen jobs,
    the highest jobId is 15. *)
Definition after_exit_101 : shell :=
  default (init_shell false) (sigchld_handler (bg_jobs 15) [(101, WIFEXITED 0)]).

(** Three background jobs, then one run of [sigchld_handler] that is told
    that job 102 stopped and job 103 exited. *)
Definition after_two_reports : shell :=
  default (init_shell false)
    (sigchld_handler (bg_jobs 3) [(102, WIFSTOPPED 20); (103, WIFEXITED 0)]).

(** Fifteen background jobs, the exit of the second (jobId 2), then two
    more background jobs, 200 and 201. *)
Definition two_jobs_one_jid : shell :=
  foldl (spawn true)
    (default (init_shell false) (sigchld_handler (bg_jobs 15) [(102, WIFEXITED 0)]))
    [200; 201].

(** The check that each of the processes [ps], spawned in this order in the
    background, gets an id [fork] can return. *)
Fixpoint spawns_fresh (st : shell) (ps : list Z) : bool :=
  match ps with
  | [] => true
  | p :: ps' =>
      (1 <=? p) && forallb (fun j => negb (pid j =? p)) (jobs st)
      && spawns_fresh (spawn true st p) ps'
  end.

(** * Properties *)

(** ** The table scan *)

(** A write through [&jobs[i]] replaces the slot [i]. *)
Lemma alter_as_insert {A} (f : A -> A) (l : list A) i x :
  l !! i = Some x -> alter f i l = <[i := f x]> l.
Proof.
  intros Hx. apply list_eq. intros k.
  destruct (decide (i = k)) as [<-|Hne].
  - rewrite list_lookup_alter_eq, Hx, list_lookup_insert_eq; [done |].
    by eapply lookup_lt_Some.
  - by rewrite list_lookup_alter_ne, list_lookup_insert_ne.
Qed.

Lemma first_slot_Some test js i :
  first_slot test js = Some i <->
  exists j, js !! i = Some j /\ test j = true /\
            forall k y, js !! k = Some y -> (k < i)%nat -> test y = false.
Proof.
  revert i. induction js as [|x js IH]; intros i; simpl.
  - split; [done | by intros (j & ? & _)].
  - destruct (test x) eqn:Hx.
    + split.
      * intros [= <-]. exists x. repeat split; [done | intros; lia].
      * intros (j & Hj & Ht & Hmin). destruct i as [|i]; [done |].
        specialize (Hmin 0%nat x eq_refl ltac:(lia)). congruence.
    + rewrite fmap_Some. split.
      * intros (i' & (j & Hj & Ht & Hmin)%IH & ->).
        exists j. repeat split; [done.. |].
        intros [|k] y Hy Hk; simpl in Hy; [congruence |].
        apply (Hmin k); [done | lia].
      * intros (j & Hj & Ht & Hmin). destruct i as [|i]; simpl in Hj; [congruence |].
        exists i. split; [| done]. apply IH. exists j. repeat split; [done.. |].
        intros k y Hy Hk. apply (Hmin (S k)); [done | lia].
Qed.

Lemma first_slot_None test js :
  first_slot test js = None <-> Forall (fun j => test j = false) js.
Proof.
  induction js as [|x js IH]; simpl.
  - split; [constructor | done].
  - destruct (test x) eqn:Hx.
    + split; [done | intros H; inversion H; congruence].
    + destruct (first_slot test js); simpl.
      * split; [done |]. intros H; inversion H; subst.
        assert (Some n = None) by (by apply IH). done.
      * split; [| done]. intros _. constructor; [done | by apply IH].
Qed.

Lemma first_slot_lt test js i :
  first_slot test js = Some i -> (i < length js)%nat.
Proof.
  intros (j & Hj & _)%first_slot_Some. by eapply lookup_lt_Some.
Qed.

(** [getjobpid] finds a slot exactly when [p] is the pid of an active entry. *)
Lemma getjobpid_None js p :
  getjobpid js p = None <-> ~ (1 <= p /\ exists i j, js !! i = Some j /\ pid j = p).
Proof.
  unfold getjobpid. destruct (Z.ltb_spec p 1) as [Hlt|Hge].
  - split; [intros _ [? _]; lia | done].
  - rewrite first_slot_None, Forall_lookup. split.
    + intros Hall (_ & i & j & Hj & Hp). specialize (Hall i j Hj). simpl in Hall. lia.
    + intros Hno i j Hj. apply Z.eqb_neq. intros Hp. apply Hno. eauto.
Qed.

Lemma getjobpid_Some js p i :
  getjobpid js p = Some i ->
  1 <= p /\ exists j, js !! i = Some j /\ pid j = p.
Proof.
  unfold getjobpid. destruct (Z.ltb_spec p 1); [done |].
  intros (j & Hj & Hp & _)%first_slot_Some. apply Z.eqb_eq in Hp. eauto.
Qed.

(** ** The built-in dispatcher *)

(** [do_bgfg] only ever prints: the table, the counter and the signals sent
    are those it was called with. *)
Lemma do_bgfg_only_prints strcmp1 st argv :
  jobs (do_bgfg strcmp1 st argv) = jobs st /\
  nextjid (do_bgfg strcmp1 st argv) = nextjid st /\
  kills (do_bgfg strcmp1 st argv) = kills st.
Proof.
  unfold do_bgfg.
  destruct (argv !! 1%nat) as [argv1|]; [| done].
  destruct (negb _); [done |].
  destruct (isdigit (char0 argv1)).
  - destruct (getjobpid _ _); [by destruct (String.eqb _ _) | done].
  - destruct (getjobjid _ _); [by destruct (String.eqb _ _) | done].
Qed.

(** C1 (the code misses it).  On the stopped job 5, which [getjobpid]
    resolves, [bg 5] sends no signal, leaves the job Stopped and prints
    nothing; [fg 5] sends no signal, leaves the job Stopped, and [eval]
    returns to the read loop without entering [waitfg]. *)
Theorem do_bgfg_resolved_job_untouched :
  forall strcmp1 fk,
    getjobpid (jobs stopped_5) 5 = Some 0%nat /\
    jobs stopped_5 !! 0%nat = Some (mk_job 5 1 ST sleep_fg) /\
    do_bgfg strcmp1 stopped_5 ["bg"; "5"] = stopped_5 /\
    kills stopped_5 = [] /\
    eval strcmp1 stopped_5 ("fg 5" ++ nl) ["fg"; "5"] false fk = Returned stopped_5.
Proof. intros strcmp1 fk. by vm_compute. Qed.

(** A digit in front selects the process-id branch, whatever follows it. *)
Lemma do_bgfg_digit strcmp1 st argv0 argv1 rest :
  isdigit (char0 argv1) = true ->
  do_bgfg strcmp1 st (argv0 :: argv1 :: rest) =
    match getjobpid (jobs st) (atoi argv1) with
    | Some _ => st
    | None => printf st ("(" ++ fmt_d (atoi argv1) ++ "): No such process" ++ nl)
    end.
Proof.
  intros Hd. unfold do_bgfg. simpl. rewrite Hd. simpl.
  destruct (getjobpid _ _); [by destruct (String.eqb _ _) | done].
Qed.

(** *** [atoi] reads back what [%d] prints *)

Lemma atoi_digits_string_of_uint d : forall acc,
  atoi_digits (NilEmpty.string_of_uint d) acc =
    acc * Z.of_N (10 ^ Unsigned.usize d) + Z.of_N (Unsigned.of_lu (Decimal.rev d)).
Proof.
  induction d; intros acc; cbn [NilEmpty.string_of_uint atoi_digits Unsigned.usize];
    [ simpl; lia | .. ];
    change (isdigit _) with true; cbn match; rewrite IHd;
    match goal with
    | |- context [Decimal.rev (?D d)] =>
        change (Decimal.rev (D d)) with (Decimal.revapp d (D Decimal.Nil));
        rewrite (Unsigned.of_lu_revapp d (D Decimal.Nil))
    end;
    rewrite N.pow_succ_r'; cbn [Unsigned.of_lu];
    rewrite ?N2Z.inj_add, ?N2Z.inj_mul;
    set (m := Z.of_N (10 ^ Unsigned.usize d));
    set (r := Z.of_N (Unsigned.of_lu (Decimal.rev d)));
    clearbody m r; vm_compute (code _); simpl Z.of_N; lia.
Qed.

Lemma decimal_value_string_of_uint d :
  d <> Decimal.Nil ->
  decimal_value (NilEmpty.string_of_uint d) = Z.of_N (Pos.of_uint d).
Proof.
  intros Hd. rewrite Unsigned.of_uint_alt, <- (Z.add_0_l (Z.of_N _)).
  change 0 with (0 * Z.of_N (10 ^ Unsigned.usize d)) at 1.
  rewrite <- atoi_digits_string_of_uint.
  destruct d; done.
Qed.

Lemma string_of_uint_nonnil d :
  d <> Decimal.Nil -> NilZero.string_of_uint d = NilEmpty.string_of_uint d.
Proof. by destruct d. Qed.

(** What [%d] prints writes the number printed. *)
Lemma decimal_value_fmt_d z : decimal_value (fmt_d z) = z.
Proof.
  unfold fmt_d. destruct z as [|p|p]; [done | |]; cbn [Z.to_int NilZero.string_of_int];
    pose proof (Unsigned.to_uint_nonnil p) as Hp;
    rewrite (string_of_uint_nonnil _ Hp).
  - by rewrite decimal_value_string_of_uint, Unsigned.of_to.
  - assert (decimal_value (String "-" (NilEmpty.string_of_uint (Pos.to_uint p)))
            = - decimal_value (NilEmpty.string_of_uint (Pos.to_uint p))) as ->.
    { unfold decimal_value at 1. cbn [skip_space]. change (isspace "-") with false.
      cbn match. unfold decimal_value. by destruct (Pos.to_uint p). }
    by rewrite decimal_value_string_of_uint, Unsigned.of_to.
Qed.

(** [atoi] returns an [int]. *)
Lemma atoi_int s : INT_MIN <= atoi s <= INT_MAX.
Proof.
  unfold atoi, int_of_long, INT_MIN, INT_MAX.
  pose proof (Z.mod_pos_bound (strtol s + 2 ^ 31) (2 ^ 32) ltac:(lia)). lia.
Qed.

(** On a number that fits an [int], [atoi] is the number written. *)
Lemma atoi_decimal_value s :
  INT_MIN <= decimal_value s <= INT_MAX -> atoi s = decimal_value s.
Proof.
  unfold atoi, int_of_long, strtol, INT_MIN, INT_MAX, LONG_MIN, LONG_MAX. intros Hr.
  rewrite Z.min_r, Z.max_r by lia. rewrite Z.mod_small by lia. lia.
Qed.

(** Parsing what [%d] prints for an [int] gives the number back. *)
Lemma atoi_fmt_d z : INT_MIN <= z <= INT_MAX -> atoi (fmt_d z) = z.
Proof.
  intros Hz. rewrite atoi_decimal_value; rewrite decimal_value_fmt_d; done.
Qed.

Lemma isdigit_fmt_d z : 0 <= z -> isdigit (char0 (fmt_d z)) = true.
Proof.
  unfold fmt_d. destruct z as [|p|p]; [done | | lia]. intros _.
  cbn [Z.to_int NilZero.string_of_int].
  pose proof (Unsigned.to_uint_nonnil p) as Hp.
  rewrite (string_of_uint_nonnil _ Hp). by destruct (Pos.to_uint p).
Qed.

(** So [bg]/[fg] with a process id written as the shell prints it looks up
    that very process id. *)
Lemma do_bgfg_printed_pid strcmp1 st argv0 p rest :
  0 <= p <= INT_MAX ->
  do_bgfg strcmp1 st (argv0 :: fmt_d p :: rest) =
    match getjobpid (jobs st) p with
    | Some _ => st
    | None => printf st ("(" ++ fmt_d p ++ "): No such process" ++ nl)
    end.
Proof.
  intros Hp. rewrite do_bgfg_digit by (apply isdigit_fmt_d; lia).
  rewrite atoi_fmt_d by (unfold INT_MIN; lia). done.
Qed.







(** A string of digits is read as the number it writes. *)
Example atoi_samples :
  (atoi "0", atoi "42", atoi "007", atoi "12abc", atoi "  -7", atoi "x") = (0, 42, 7, 12, -7, 0).
Proof. reflexivity. Qed.

(** A number that does not fit an [int] wraps around; one that does not fit
    a [long] is first replaced by [LONG_MAX] or [LONG_MIN]. *)
Example atoi_wraps :
  (atoi "2147483647", atoi "2147483648", atoi "4294967301", atoi "-2147483649",
   atoi "9223372036854775807", atoi "99999999999999999999", atoi "-99999999999999999999")
  = (2147483647, -2147483648, 5, 2147483647, -1, -1, 0).
Proof. by vm_compute. Qed.

(** [bg 4294967301] finds the job of process 5, and [bg 2147483648] reports
    the process id it looked up. *)
Example do_bgfg_wrapped_pid :
  do_bgfg strcmp_percent stopped_5 ["bg"; "4294967301"] = stopped_5 /\
  do_bgfg strcmp_percent stopped_5 ["bg"; "2147483648"]
    = printf stopped_5 ("(-2147483648): No such process" ++ nl) /\
  do_bgfg strcmp_percent stopped_5 ["fg"; "%4294967297"] = stopped_5.
Proof. by vm_compute. Qed.

(** ** The keyboard handlers *)

Lemma fgpid_no_fg js : no_fg js -> fgpid js = 0.
Proof.
  intros Hno. unfold fgpid.
  assert (first_slot (fun j => jstate_eqb (state j) FG) js = None) as ->; [| done].
  apply first_slot_None. eapply Forall_impl; [exact Hno |].
  intros j Hj. simpl in *. by destruct (state j).
Qed.

(** Without a foreground job both handlers call [kill(0, sig)]. *)
Lemma handlers_no_fg_signal_group_0 st :
  no_fg (jobs st) ->
  kills (sigint_handler st) = (kills st ++ [(0, SIGINT)])%list /\
  kills (sigtstp_handler st) = (kills st ++ [(0, SIGTSTP)])%list.
Proof.
  intros Hno. unfold sigint_handler, sigtstp_handler, kill. simpl.
  by rewrite (fgpid_no_fg _ Hno).
Qed.

(** C2 (the code misses it).  In the initial shell no job is Foreground,
    and each of the two handlers still calls [kill] once, with target
    [-0 = 0], the process group 0. *)
Theorem handlers_signal_group_0_without_fg :
  no_fg (jobs (init_shell false)) /\
  kills (sigint_handler (init_shell false)) = [(0, SIGINT)] /\
  kills (sigtstp_handler (init_shell false)) = [(0, SIGTSTP)].
Proof.
  split; [by repeat constructor |]. by vm_compute.
Qed.

(** ** The evaluator *)

(** A successful [addjob] stores the counter as the jobId and then steps the
    counter, back to 1 when it would pass [MAXJOBS]. *)
Lemma addjob_jid_Some st p s cmd j :
  addjob_jid st p s cmd = Some j ->
  j = nextjid st /\
  nextjid (snd (addjob st p s cmd)) =
    (if nextjid st + 1 >? Z.of_nat MAXJOBS then 1 else nextjid st + 1).
Proof.
  unfold addjob_jid, addjob.
  destruct (p <? 1); [done |].
  destruct (first_slot _ (jobs st)) as [i|] eqn:Hf; [| done].
  pose proof (first_slot_lt _ _ _ Hf) as Hlt. simpl.
  destruct (verbose st); simpl; rewrite list_lookup_insert_eq by done; simpl;
    by intros [= <-].
Qed.

(** When the counter does not wrap, the line printed for a background job
    shows the jobId that [addjob] stored. *)
Lemma eval_bg_prints_assigned_jid strcmp1 st cmd argv p j :
  argv <> [] -> builtin_cmd strcmp1 st argv = None ->
  addjob_jid st p BG cmd = Some j ->
  nextjid st < Z.of_nat MAXJOBS ->
  eval strcmp1 st cmd argv true (Fork_parent p) =
    Returned (printf (snd (addjob st p BG cmd))
                     ("[" ++ fmt_d j ++ "] (" ++ fmt_d p ++ ") " ++ cmd)).
Proof.
  intros Hargv Hb Hj Hn. unfold eval. destruct argv as [|argv0 rest]; [done |].
  rewrite Hb. apply addjob_jid_Some in Hj as [-> Hnext]. rewrite Hnext.
  destruct (Z.gtb_spec (nextjid st + 1) (Z.of_nat MAXJOBS)); [lia |].
  by replace (nextjid st + 1 - 1) with (nextjid st) by lia.
Qed.

(** C4 (the code misses it).  With fifteen jobs in the table the counter is
    16; the background job 200 is registered with jobId 16, the counter
    wraps to 1, and the line printed for the job shows [nextjid - 1 = 0]. *)
Theorem eval_bg_prints_wrapped_counter :
  forall strcmp1,
  exists st',
    eval strcmp1 (bg_jobs 15) sleep_bg ["/bin/sleep"; "5"] true (Fork_parent 200)
      = Returned st' /\
    fst (addjob (bg_jobs 15) 200 BG sleep_bg) = true /\
    addjob_jid (bg_jobs 15) 200 BG sleep_bg = Some 16 /\
    pid2jid (jobs st') 200 = 16 /\
    stdout st' = stdout (bg_jobs 15) ++ "[0] (200) " ++ sleep_bg.
Proof. intros strcmp1. eexists. by vm_compute. Qed.

(** ** The registry: [addjob] on a full table *)

(** C6 as stated fails for a pid below 1: on the full table of sixteen
    background jobs [addjob] with pid 0 fails without reporting anything. *)
Lemma addjob_full_pid_0_silent :
  table_full (jobs (bg_jobs 16)) /\
  addjob (bg_jobs 16) 0 BG sleep_bg = (false, bg_jobs 16) /\
  stdout (snd (addjob (bg_jobs 16) 0 BG sleep_bg))
    <> stdout (bg_jobs 16) ++ "Tried to create too many jobs" ++ nl.
Proof.
  split; [| by vm_compute].
  split; [done |]. vm_compute. by repeat constructor.
Qed.

(** C6 (amended).  On a table holding 16 active jobs [addjob] fails for
    every pid and leaves the entries, the counter and the signals sent
    unchanged; it reports [Tried to create too many jobs] when the pid is at
    least 1, and reports nothing when the pid is below 1. *)
Theorem addjob_full st p s cmd :
  table_full (jobs st) ->
  fst (addjob st p s cmd) = false /\
  jobs (snd (addjob st p s cmd)) = jobs st /\
  nextjid (snd (addjob st p s cmd)) = nextjid st /\
  kills (snd (addjob st p s cmd)) = kills st /\
  stdout (snd (addjob st p s cmd)) =
    if 1 <=? p then stdout st ++ "Tried to create too many jobs" ++ nl else stdout st.
Proof.
  intros [_ Hact]. unfold addjob.
  destruct (Z.ltb_spec p 1) as [Hlt|Hge].
  - destruct (Z.leb_spec 1 p); [lia | done].
  - assert (first_slot (fun j => pid j =? 0) (jobs st) = None) as ->.
    { apply first_slot_None. eapply Forall_impl; [exact Hact |].
      intros j Hj. by apply Z.eqb_neq. }
    destruct (Z.leb_spec 1 p); [done | lia].
Qed.

Lemma addjob_full_witness :
  fst (addjob (bg_jobs 16) 300 FG sleep_fg) = false /\
  jobs (snd (addjob (bg_jobs 16) 300 FG sleep_fg)) = jobs (bg_jobs 16) /\
  nextjid (snd (addjob (bg_jobs 16) 300 FG sleep_fg)) = nextjid (bg_jobs 16) /\
  kills (snd (addjob (bg_jobs 16) 300 FG sleep_fg)) = kills (bg_jobs 16) /\
  stdout (snd (addjob (bg_jobs 16) 300 FG sleep_fg)) =
    if 1 <=? 300 then stdout (bg_jobs 16) ++ "Tried to create too many jobs" ++ nl
    else stdout (bg_jobs 16).
Proof.
  apply (addjob_full (bg_jobs 16) 300 FG sleep_fg).
  split; [reflexivity |]. vm_compute. repeat constructor; discriminate.
Defined.

(** ** The child-state-change handler *)

(** What the stopped branch does when the lookup succeeds: it prints the
    report and sets the state of the slot found to Stopped. *)
Lemma sigchld_child_stopped_Some st wait_pid sig st' :
  sigchld_child st wait_pid (WIFSTOPPED sig) = Some st' ->
  exists i, getjobpid (jobs st) wait_pid = Some i /\
            jobs st' = alter (set_state ST) i (jobs st) /\
            nextjid st' = nextjid st /\ kills st' = kills st.
Proof.
  unfold sigchld_child. simpl.
  destruct (getjobpid (jobs st) wait_pid) as [i|]; [| done].
  intros [= <-]. by exists i.
Qed.

(** C10.  For a reported stopped child the branch is undefined (it
    dereferences the null pointer returned by [getjobpid]) exactly when the
    reported pid is not the pid of an entry of the table. *)
Theorem sigchld_stopped_needs_entry st wait_pid sig :
  sigchld_child st wait_pid (WIFSTOPPED sig) = None <->
  ~ (1 <= wait_pid /\ exists i j, jobs st !! i = Some j /\ pid j = wait_pid).
Proof.
  rewrite <- getjobpid_None. unfold sigchld_child. simpl.
  by destruct (getjobpid (jobs st) wait_pid).
Qed.

(** The stopped child of a command that was started on a full table is such
    a child: the seventeenth job 117 is not in the table. *)
Example sigchld_stopped_untracked :
  sigchld_handler (spawn true (bg_jobs 16) 117) [(117, WIFSTOPPED 19)] = None.
Proof. by vm_compute. Qed.

(** ** The registry: [deletejob] and [maxjid] *)

Lemma foldr_max_init a x l :
  foldr Z.max (Z.max a x) l = Z.max x (foldr Z.max a l).
Proof. induction l as [|y l IH]; simpl; lia. Qed.

Lemma maxjid_foldr js : maxjid js = foldr Z.max 0 (jid <$> js).
Proof.
  unfold maxjid. generalize 0 as a.
  induction js as [|x js IH]; intros a; simpl; [done |].
  rewrite IH.
  replace (if jid x >? a then jid x else a) with (Z.max a (jid x))
    by (destruct (Z.gtb_spec (jid x) a); lia).
  apply foldr_max_init.
Qed.

Lemma foldr_max_nonneg l : 0 <= foldr Z.max 0 l.
Proof. induction l; simpl; lia. Qed.

(** On a table of well-shaped slots the loop of [maxjid], which reads every
    slot, computes the largest jobId of the active ones. *)
Lemma maxjid_active js :
  Forall slot_ok js -> maxjid js = max_active_jid js.
Proof.
  rewrite maxjid_foldr. unfold max_active_jid.
  induction 1 as [|x js Hx _ IH]; [done |].
  rewrite filter_cons, fmap_cons. simpl. rewrite IH.
  destruct (decide (active x)) as [Ha|Hna]; [done |].
  destruct Hx as [(Hp & Hj & _) | (Hp & _)].
  - rewrite Hj. pose proof (foldr_max_nonneg (jid <$> filter active js)). lia.
  - unfold active in Hna. lia.
Qed.

Lemma slot_ok_active_pid j : slot_ok j -> active j -> 1 <= pid j.
Proof. intros [(Hp & _) | (Hp & _)] Ha; [by unfold active in Ha | done]. Qed.

Lemma active_pids_lookup js i j :
  js !! i = Some j -> active j -> pid j ∈ active_pids js.
Proof.
  intros Hj Ha. unfold active_pids. apply list_elem_of_fmap.
  exists j. split; [done |]. apply list_elem_of_filter. split; [done |].
  by eapply list_elem_of_lookup_2.
Qed.

(** Two active slots with the same pid are the same slot. *)
Lemma active_pids_unique js :
  NoDup (active_pids js) -> unique_pids js.
Proof.
  intros Hnd i1 i2 j1 j2. revert Hnd.
  revert i1 i2. induction js as [|x js IH]; intros i1 i2 Hnd H1 H2 Ha Hp; [done |].
  assert (active j2) as Ha2 by (unfold active in *; congruence).
  unfold active_pids in Hnd. rewrite filter_cons in Hnd.
  destruct i1 as [|i1], i2 as [|i2]; simpl in H1, H2; simplify_eq; [done | | |].
  - rewrite decide_True in Hnd by done. simpl in Hnd. apply NoDup_cons in Hnd as [Hnin _].
    exfalso. apply Hnin. rewrite Hp. by eapply active_pids_lookup.
  - rewrite decide_True in Hnd by done. simpl in Hnd. apply NoDup_cons in Hnd as [Hnin _].
    exfalso. apply Hnin. rewrite <- Hp. by eapply active_pids_lookup.
  - f_equal. apply (IH i1 i2); [| done..].
    destruct (decide (active x)); [| done].
    simpl in Hnd. by apply NoDup_cons in Hnd as [_ ?].
Qed.

(** C8.  On a well-shaped table [deletejob] succeeds exactly when an active
    slot holds the pid.  On success that slot, the only one holding the pid,
    is cleared (pid 0, jobId 0, state [UNDEF], empty command line), every
    other slot is as before, and the counter is one more than the largest
    jobId among the active slots that remain (1 when none remains).  On
    failure the shell state is unchanged. *)
Theorem deletejob_spec st p :
  wf st ->
  (fst (deletejob st p) = true <->
     exists i j, jobs st !! i = Some j /\ active j /\ pid j = p) /\
  (fst (deletejob st p) = true ->
     exists i j,
       jobs st !! i = Some j /\ active j /\ pid j = p /\
       (forall i' j', jobs st !! i' = Some j' -> pid j' = p -> i' = i) /\
       snd (deletejob st p) =
         mk_shell (<[i := mk_job 0 0 UNDEF EmptyString]> (jobs st))
                  (max_active_jid (<[i := mk_job 0 0 UNDEF EmptyString]> (jobs st)) + 1)
                  (verbose st) (stdout st) (kills st)) /\
  (fst (deletejob st p) = false -> snd (deletejob st p) = st).
Proof.
  intros [Hlen Hok Hnd Hnext].
  assert (forall i j, jobs st !! i = Some j -> active j -> pid j = p -> 1 <= p) as Hpos.
  { intros i j Hj Ha <-. apply slot_ok_active_pid; [| done].
    eapply Forall_lookup_1; [exact Hok | exact Hj]. }
  unfold deletejob.
  destruct (Z.ltb_spec p 1) as [Hlt|Hge]; simpl.
  { split; [| done]. split; [done |].
    intros (i & j & Hj & Ha & Hp). specialize (Hpos i j Hj Ha Hp). lia. }
  destruct (first_slot (fun j => pid j =? p) (jobs st)) as [i|] eqn:Hf; simpl.
  - apply first_slot_Some in Hf as (j & Hj & Hp%Z.eqb_eq & _).
    assert (active j) as Ha by (unfold active; lia).
    split; [| split; [| done]].
    + split; [| done]. intros _. by exists i, j.
    + intros _. exists i, j. repeat split; [done.. | |].
      * intros i' j' Hj' Hp'. symmetry.
        apply (Hnd i i' j j'); [done.. | congruence].
      * rewrite (alter_as_insert clearjob _ _ _ Hj).
        change (clearjob j) with (mk_job 0 0 UNDEF EmptyString).
        unfold set_nextjid, set_jobs. simpl. f_equal.
        rewrite maxjid_active; [done |].
        apply Forall_insert; [done |]. left. by unfold cleared.
  - split; [| done]. split; [done |].
    intros (i & j & Hj & Ha & Hp).
    apply first_slot_None in Hf.
    pose proof (Forall_lookup_1 _ _ _ _ Hf Hj) as Hne. simpl in Hne. lia.
Qed.

(** ** Reaching the concrete states *)

Lemma reachable_step s s' : reachable s -> step s s' -> reachable s'.
Proof. intros [v Hv] Hs. exists v. by eapply rtc_r. Qed.

Lemma fork_fresh_check js p :
  (1 <=? p) && forallb (fun j => negb (pid j =? p)) js = true ->
  fork_fresh js (Fork_parent p).
Proof.
  intros [Hp Hall]%andb_prop. split; [lia |].
  apply Forall_forall. intros j Hj.
  rewrite forallb_forall in Hall. apply list_elem_of_In in Hj.
  specialize (Hall j Hj). apply negb_true_iff in Hall. lia.
Qed.

Lemma reachable_spawn_bg st p :
  reachable (st, Reading) -> fork_fresh (jobs st) (Fork_parent p) ->
  reachable (spawn true st p, Reading).
Proof.
  intros Hr Hf. eapply reachable_step; [exact Hr |].
  left. eapply (step_eval_returned strcmp_percent st sleep_bg ["/bin/sleep"; "5"] true); [exact Hf |].
  reflexivity.
Qed.

Lemma reachable_spawn_fg st p :
  reachable (st, Reading) -> fork_fresh (jobs st) (Fork_parent p) ->
  reachable (spawn false st p, Waiting p Lookup).
Proof.
  intros Hr Hf. eapply reachable_step; [exact Hr |].
  left. eapply (step_eval_waitfg strcmp_percent st sleep_fg ["/bin/sleep"; "5"] false); [exact Hf |].
  reflexivity.
Qed.

Lemma reachable_spawns st ps :
  reachable (st, Reading) -> spawns_fresh st ps = true ->
  reachable (foldl (spawn true) st ps, Reading).
Proof.
  revert st. induction ps as [|p ps IH]; intros st Hr Hf; simpl in *; [done |].
  apply andb_prop in Hf as [Hf Hrest].
  apply IH; [| done]. apply reachable_spawn_bg; [done |]. by apply fork_fresh_check.
Qed.

Lemma reachable_init v : reachable (init_shell v, Reading).
Proof. exists v. apply rtc_refl. Qed.

Lemma reachable_bg_jobs_15 : reachable (bg_jobs 15, Reading).
Proof. apply reachable_spawns; [apply reachable_init | by vm_compute]. Qed.

Lemma reachable_after_exit_101 : reachable (after_exit_101, Reading).
Proof.
  eapply reachable_step; [exact reachable_bg_jobs_15 |].
  right. apply (step_sigchld _ _ [(101, WIFEXITED 0)]). by vm_compute.
Qed.

(** ** The registry: the jobIds [addjob] assigns *)

(** While the counter does not pass [MAXJOBS] the successive jobIds are the
    successive integers from the counter on. *)
Lemma addjobs_consecutive reqs : forall st jids,
  addjobs st reqs = Some jids ->
  nextjid st + Z.of_nat (length reqs) <= Z.of_nat MAXJOBS + 1 ->
  jids = (fun k => nextjid st + Z.of_nat k) <$> seq 0 (length reqs).
Proof.
  induction reqs as [|[[p s] cmd] reqs IH]; intros st jids Hrun Hle; simpl in *.
  - by injection Hrun as <-.
  - destruct (addjob_jid st p s cmd) as [j|] eqn:Hj; [| done]. simpl in Hrun.
    destruct (addjobs _ reqs) as [js|] eqn:Hjs; [| done]. simpl in Hrun.
    injection Hrun as <-.
    apply addjob_jid_Some in Hj as [-> Hnext].
    f_equal; [lia |].
    destruct reqs as [|r reqs'].
    { simpl in Hjs. by injection Hjs as <-. }
    assert (nextjid (snd (addjob st p s cmd)) = nextjid st + 1) as Hn.
    { rewrite Hnext. simpl in Hle. destruct (Z.gtb_spec (nextjid st + 1) (Z.of_nat MAXJOBS)); lia. }
    rewrite (IH _ _ Hjs) by (rewrite Hn; simpl in *; lia).
    rewrite Hn, <- (fmap_S_seq 0), <- list_fmap_compose.
    apply list_fmap_ext. intros _ k _. simpl. lia.
Qed.

(** C3 as stated fails.  The shell reaches [after_exit_101] (fifteen
    background jobs, then the exit of the first); the two [addjob] calls
    that follow both succeed and assign the jobIds 16 and then 1. *)
Lemma addjob_jid_wraps :
  reachable (after_exit_101, Reading) /\
  addjobs after_exit_101 [(200, BG, sleep_bg); (201, BG, sleep_bg)] = Some [16; 1] /\
  ~ strictly_increasing [16; 1].
Proof.
  split; [exact reachable_after_exit_101 |]. split; [by vm_compute |].
  intros H. specialize (H 0%nat 1%nat 16 1 eq_refl eq_refl). lia.
Qed.

(** C3 (amended).  The jobIds assigned by consecutive successful [addjob]
    calls, with no [deletejob] in between, strictly increase as long as the
    counter does not pass [MAXJOBS] inside the sequence: from a state whose
    counter is [n], for at most [17 - n] calls. *)
Theorem addjobs_strictly_increasing st reqs jids :
  addjobs st reqs = Some jids ->
  nextjid st + Z.of_nat (length reqs) <= Z.of_nat MAXJOBS + 1 ->
  strictly_increasing jids.
Proof.
  intros Hrun Hle. rewrite (addjobs_consecutive _ _ _ Hrun Hle).
  intros i j a b Ha Hb Hij.
  rewrite list_lookup_fmap in Ha, Hb.
  destruct (seq 0 (length reqs) !! i) as [x|] eqn:Hx; [| done].
  destruct (seq 0 (length reqs) !! j) as [y|] eqn:Hy; [| done].
  apply lookup_seq in Hx as [-> _]. apply lookup_seq in Hy as [-> _].
  simpl in Ha, Hb. simplify_eq. lia.
Qed.

Lemma addjobs_strictly_increasing_witness :
  strictly_increasing [1; 2; 3].
Proof.
  apply (addjobs_strictly_increasing (init_shell false)
           [(101, BG, sleep_bg); (102, FG, sleep_fg); (103, BG, sleep_bg)] [1; 2; 3]).
  - reflexivity.
  - vm_compute. discriminate.
Defined.

Ltac wf_table_by_computation :=
  split;
  [ by apply (bool_decide_unpack _); vm_compute
  | by apply active_pids_unique; apply (bool_decide_unpack _); vm_compute ].
(** Well-shapedness of a concrete state, by computation. *)
Ltac wf_by_computation :=
  split;
  [ reflexivity
  | by apply (bool_decide_unpack _); vm_compute
  | by apply active_pids_unique; apply (bool_decide_unpack _); vm_compute
  | by vm_compute ].

(** Three background jobs: deleting process 102 succeeds and clears its
    slot; deleting process 999, which no slot holds, fails and changes
    nothing. *)
Lemma deletejob_spec_witness :
  wf (bg_jobs 3) /\
  (fst (deletejob (bg_jobs 3) 102) = true /\
   exists i j,
     jobs (bg_jobs 3) !! i = Some j /\ active j /\ pid j = 102 /\
     (forall i' j', jobs (bg_jobs 3) !! i' = Some j' -> pid j' = 102 -> i' = i) /\
     snd (deletejob (bg_jobs 3) 102) =
       mk_shell (<[i := mk_job 0 0 UNDEF EmptyString]> (jobs (bg_jobs 3)))
                (max_active_jid (<[i := mk_job 0 0 UNDEF EmptyString]> (jobs (bg_jobs 3))) + 1)
                (verbose (bg_jobs 3)) (stdout (bg_jobs 3)) (kills (bg_jobs 3))) /\
  (fst (deletejob (bg_jobs 3) 999) = false /\
   (~ exists i j, jobs (bg_jobs 3) !! i = Some j /\ active j /\ pid j = 999) /\
   snd (deletejob (bg_jobs 3) 999) = bg_jobs 3).
Proof.
  assert (wf (bg_jobs 3)) as Hwf by wf_by_computation.
  assert (fst (deletejob (bg_jobs 3) 102) = true) as Hyes by (vm_compute; reflexivity).
  assert (fst (deletejob (bg_jobs 3) 999) = false) as Hno by (vm_compute; reflexivity).
  split; [exact Hwf |]. split.
  - split; [exact Hyes |].
    exact (proj1 (proj2 (deletejob_spec (bg_jobs 3) 102 Hwf)) Hyes).
  - split; [exact Hno |]. split.
    + intros Hex.
      apply (proj2 (proj1 (deletejob_spec (bg_jobs 3) 999 Hwf))) in Hex.
      rewrite Hno in Hex. discriminate Hex.
    + exact (proj2 (proj2 (deletejob_spec (bg_jobs 3) 999 Hwf)) Hno).
Defined.

(** ** The foreground waiter *)

Lemma waitfg_poll_S n js p pc :
  waitfg_poll (S n) js p pc =
    match waitfg_step js p pc with
    | Return => Some None
    | Sleep i => Some (Some i)
    | Goto pc' => waitfg_poll n js p pc'
    end.
Proof. done. Qed.

(** One wake-up always ends, in a return or in a sleep, within three loop
    tests. *)
Lemma waitfg_poll_total js p pc : is_Some (waitfg_poll 3 js p pc).
Proof.
  assert (forall n, is_Some (waitfg_poll (S (S n)) js p Lookup)) as Hlookup.
  { intros n. cbn [waitfg_poll waitfg_step].
    destruct (getjobpid js p) as [i|] eqn:Hg; [| by eexists].
    apply getjobpid_Some in Hg as (_ & job & Hj & Hp).
    cbn [waitfg_poll waitfg_step]. rewrite Hj, Hp, Z.eqb_refl. cbn [negb].
    destruct (negb _); by eexists. }
  destruct pc as [|i]; [apply Hlookup |].
  rewrite waitfg_poll_S. cbn [waitfg_step].
  destruct (js !! i) as [job|]; [| apply Hlookup].
  destruct (negb (pid job =? p)); [apply Hlookup |].
  destruct (negb _); by eexists.
Qed.

Lemma waitfg_poll_lookup n js p :
  wf_table js ->
  (fg_done js p /\ waitfg_poll (S (S n)) js p Lookup = Some None) \/
  (~ fg_done js p /\ exists i, waitfg_poll (S (S n)) js p Lookup = Some (Some i)).
Proof.
  intros [Hok Hun]. cbn [waitfg_poll waitfg_step].
  destruct (getjobpid js p) as [i|] eqn:Hg.
  - apply getjobpid_Some in Hg as (Hp & job & Hj & Hpid).
    assert (active job) as Ha by (unfold active; lia).
    cbn [waitfg_poll waitfg_step]. rewrite Hj, Hpid, Z.eqb_refl. cbn [negb].
    destruct (state job) eqn:Hs; simpl;
      try (left; split; [right; exists i, job; by rewrite Hs | done]).
    right. split; [| by eexists].
    intros [Hno | (i' & j' & Hj' & Ha' & Hp' & Hs')].
    + by apply (Hno i job).
    + assert (i' = i) as -> by (apply (Hun i' i j' job); [done.. | congruence]).
      congruence.
  - left. split; [left | done]. intros i j Hj Ha Hp.
    apply getjobpid_None in Hg. apply Hg. split; [| by eauto].
    rewrite <- Hp. apply slot_ok_active_pid; [| done].
    by eapply Forall_lookup_1.
Qed.

(** On a well-shaped table a wake-up returns exactly when the return
    condition holds, from either program point. *)
Lemma waitfg_poll_spec js p pc :
  wf_table js ->
  (fg_done js p /\ waitfg_poll 3 js p pc = Some None) \/
  (~ fg_done js p /\ exists i, waitfg_poll 3 js p pc = Some (Some i)).
Proof.
  intros Hwf. destruct pc as [|i]; [by apply waitfg_poll_lookup |].
  pose proof (waitfg_poll_lookup 0 js p Hwf) as Hlookup.
  destruct Hwf as [Hok Hun].
  rewrite waitfg_poll_S. cbn [waitfg_step].
  destruct (js !! i) as [job|] eqn:Hj; [| exact Hlookup].
  destruct (Z.eqb_spec (pid job) p) as [Hp|Hp]; cbn [negb]; [| exact Hlookup].
  destruct (decide (active job)) as [Ha|Hna].
  - destruct (state job) eqn:Hs; simpl;
      try (left; split; [right; exists i, job; by rewrite Hs | done]).
    right. split; [| by eexists].
    intros [Hno | (i' & j' & Hj' & Ha' & Hp' & Hs')].
    + by apply (Hno i job).
    + assert (i' = i) as -> by (apply (Hun i' i j' job); [done.. | congruence]).
      congruence.
  - assert (cleared job) as (Hp0 & _ & Hs).
    { destruct (Forall_lookup_1 _ _ _ _ Hok Hj) as [Hc | (Hp1 & _)]; [done |].
      unfold active in Hna. lia. }
    rewrite Hs. simpl. left. split; [left | done].
    intros i' j' _ Ha'. unfold active in Ha'. lia.
Qed.

(** [waitfg] against the successive tables: it returns after [k] sleeps
    exactly when the table of wake-up [k] is the first that satisfies the
    return condition. *)
Lemma waitfg_first_done p tables :
  Forall wf_table tables ->
  forall pc k,
    waitfg p pc tables = Some k <->
    (exists js, tables !! k = Some js /\ fg_done js p) /\
    (forall i js, (i < k)%nat -> tables !! i = Some js -> ~ fg_done js p).
Proof.
  induction 1 as [|js later Hwf _ IH]; intros pc k; cbn [waitfg].
  - split; [done |]. intros [(js & Hjs & _) _]. by rewrite lookup_nil in Hjs.
  - destruct (waitfg_poll_spec js p pc Hwf) as [[Hdone ->] | [Hnot (i & ->)]].
    + split.
      * intros [= <-]. split; [by exists js |]. intros; lia.
      * intros [_ Hfirst]. destruct k as [|k]; [done |].
        exfalso. apply (Hfirst 0%nat js); [lia | done | done].
    + rewrite fmap_Some. split.
      * intros (k' & Hk' & ->). apply IH in Hk' as [Hk Hfirst].
        split; [done |]. intros [|i'] js' Hlt Hjs'; simpl in Hjs'.
        -- by injection Hjs' as <-.
        -- apply (Hfirst i'); [lia | done].
      * intros [(js' & Hjs' & Hdone) Hfirst]. destruct k as [|k]; simpl in Hjs'.
        { by injection Hjs' as <-. }
        exists k. split; [| done]. apply IH. split; [by exists js' |].
        intros i' js'' Hlt Hjs''. apply (Hfirst (S i')); [lia | done].
Qed.

(** C9.  Started on a sequence of well-shaped tables, one per wake-up,
    [waitfg(p)] returns at wake-up [k] exactly when table [k] is the first in
    which no job has the pid [p] or the job with the pid [p] is not in the
    Foreground state; and while the main control flow is inside [waitfg] it
    changes nothing of the shell state (table, counter, output, signals). *)
Theorem waitfg_spec p tables :
  Forall wf_table tables ->
  (forall k,
     waitfg p Lookup tables = Some k <->
     (exists js, tables !! k = Some js /\ fg_done js p) /\
     (forall i js, (i < k)%nat -> tables !! i = Some js -> ~ fg_done js p)) /\
  (forall st pc st' md', main_step (st, Waiting p pc) (st', md') -> st' = st).
Proof.
  intros Hwf. split.
  - intros k. by apply waitfg_first_done.
  - intros st pc st' md' Hstep. by inversion Hstep.
Qed.

Lemma waitfg_spec_witness :
  (exists js, [jobs (spawn false (init_shell false) 5);
               jobs (spawn false (init_shell false) 5);
               jobs stopped_5] !! 2%nat = Some js /\ fg_done js 5) /\
  (forall i js, (i < 2)%nat ->
     [jobs (spawn false (init_shell false) 5);
      jobs (spawn false (init_shell false) 5);
      jobs stopped_5] !! i = Some js -> ~ fg_done js 5).
Proof.
  assert (Forall wf_table [jobs (spawn false (init_shell false) 5);
                           jobs (spawn false (init_shell false) 5);
                           jobs stopped_5]) as Hwf.
  { do 3 (constructor; [wf_table_by_computation |]). constructor. }
  apply (proj1 (waitfg_spec 5 _ Hwf) 2%nat). vm_compute. reflexivity.
Defined.

(** ** The invariant of the shell *)

Lemma unique_pids_insert js i j job' :
  unique_pids js -> js !! i = Some j ->
  (active job' -> pid job' = pid j \/ Forall (fun x => pid x <> pid job') js) ->
  unique_pids (<[i := job']> js).
Proof.
  intros Hun Hj Hcond i1 i2 j1 j2 H1 H2 Ha Hp.
  apply list_lookup_insert_Some in H1, H2.
  destruct H1 as [(<- & <- & _) | (Hne1 & H1)], H2 as [(<- & <- & _) | (Hne2 & H2)].
  - done.
  - exfalso. destruct (Hcond Ha) as [Hsame | Hfresh].
    + apply Hne2. apply (Hun i i2 j j2); [done.. | | congruence].
      unfold active in *. congruence.
    + pose proof (Forall_lookup_1 _ _ _ _ Hfresh H2) as Hx. simpl in Hx. congruence.
  - exfalso. assert (active job') as Ha' by (unfold active in *; congruence).
    destruct (Hcond Ha') as [Hsame | Hfresh].
    + apply Hne1. symmetry. apply (Hun i1 i j1 j); [done.. | congruence].
    + pose proof (Forall_lookup_1 _ _ _ _ Hfresh H1) as Hx. simpl in Hx. congruence.
  - by apply (Hun i1 i2 j1 j2).
Qed.

(** What [addjob] does to the table and the counter. *)
Lemma addjob_cases st p s cmd :
  1 <= nextjid st ->
  (jobs (snd (addjob st p s cmd)) = jobs st /\
   nextjid (snd (addjob st p s cmd)) = nextjid st) \/
  (1 <= p /\
   exists i j, jobs st !! i = Some j /\ pid j = 0 /\
     jobs (snd (addjob st p s cmd)) = <[i := mk_job p (nextjid st) s cmd]> (jobs st) /\
     1 <= nextjid (snd (addjob st p s cmd)) /\
     (nextjid (snd (addjob st p s cmd)) = 1 \/
      nextjid (snd (addjob st p s cmd)) = nextjid st + 1)).
Proof.
  intros Hn. unfold addjob. destruct (Z.ltb_spec p 1); [by left |].
  destruct (first_slot _ (jobs st)) as [i|] eqn:Hf; [| by left].
  apply first_slot_Some in Hf as (j & Hj & Hp%Z.eqb_eq & _).
  right. split; [done |]. exists i, j.
  split; [done |]. split; [done |].
  assert (forall st1 s1, jobs (printf st1 s1) = jobs st1 /\
                         nextjid (printf st1 s1) = nextjid st1) as Hpr by done.
  destruct (verbose st); cbn [snd]; rewrite ?(proj1 (Hpr _ _)), ?(proj2 (Hpr _ _));
    cbn [jobs nextjid set_nextjid set_jobs jid];
    (split; [done |]);
    destruct (Z.gtb_spec (nextjid st + 1) (Z.of_nat MAXJOBS)); split; lia || auto.
Qed.

(** What [deletejob] does to the table and the counter. *)
Lemma deletejob_cases st p :
  snd (deletejob st p) = st \/
  (exists i j, jobs st !! i = Some j /\
     jobs (snd (deletejob st p)) = <[i := clearjob j]> (jobs st) /\
     1 <= nextjid (snd (deletejob st p))).
Proof.
  unfold deletejob. destruct (p <? 1); [by left |].
  destruct (first_slot _ (jobs st)) as [i|] eqn:Hf; [| by left].
  apply first_slot_Some in Hf as (j & Hj & _).
  right. exists i, j. simpl. rewrite (alter_as_insert clearjob _ _ _ Hj).
  repeat split; [done.. |].
  rewrite maxjid_foldr.
  pose proof (foldr_max_nonneg (jid <$> <[i := clearjob j]> (jobs st))). lia.
Qed.

Lemma wf_addjob st p s cmd :
  wf st -> s <> UNDEF ->
  Forall (fun j => pid j <> p) (jobs st) ->
  wf (snd (addjob st p s cmd)).
Proof.
  intros [Hlen Hok Hun Hn] Hs Hfresh.
  destruct (addjob_cases st p s cmd Hn) as [[Hjobs Hnext] | (Hp & i & j & Hj & Hp0 & Hjobs & Hnext & _)].
  - split; rewrite ?Hjobs, ?Hnext; done.
  - split; rewrite ?Hjobs; [by rewrite length_insert | | | done].
    + apply Forall_insert; [done |]. right. by repeat split.
    + eapply unique_pids_insert; [done.. |]. intros _. by right.
Qed.

Lemma wf_deletejob st p : wf st -> wf (snd (deletejob st p)).
Proof.
  intros Hwf. destruct (deletejob_cases st p) as [-> | (i & j & Hj & Hjobs & Hnext)]; [done |].
  destruct Hwf as [Hlen Hok Hun Hn].
  split; rewrite ?Hjobs; [by rewrite length_insert | | | done].
  - apply Forall_insert; [done |]. left. by unfold cleared.
  - eapply unique_pids_insert; [done.. |]. intros Ha. by unfold active in Ha.
Qed.

Lemma wf_printf st s : wf st -> wf (printf st s).
Proof. by intros []. Qed.

(** Clearing a slot or stopping a job keeps the mode condition. *)
Lemma mode_ok_insert js md i job' :
  mode_ok js md -> state job' <> FG -> mode_ok (<[i := job']> js) md.
Proof.
  destruct md as [|p pc]; simpl.
  - intros H Hs. by apply Forall_insert.
  - intros [Hp H] Hs. split; [done |]. by apply Forall_insert.
Qed.

Lemma mode_ok_deletejob st p md :
  mode_ok (jobs st) md -> mode_ok (jobs (snd (deletejob st p))) md.
Proof.
  intros Hm. destruct (deletejob_cases st p) as [-> | (i & j & Hj & -> & _)]; [done |].
  by apply mode_ok_insert.
Qed.

Lemma shell_inv_sigchld_child st md wait_pid chld_status st' :
  shell_inv (st, md) ->
  sigchld_child st wait_pid chld_status = Some st' ->
  shell_inv (st', md).
Proof.
  intros [Hwf Hm] Hc. simpl in *. destruct chld_status as [sig|sig|code].
  - apply sigchld_child_stopped_Some in Hc as (i & Hg & Hjobs & Hnext & _).
    apply getjobpid_Some in Hg as (Hp & j & Hj & Hpid).
    rewrite (alter_as_insert _ _ _ _ Hj) in Hjobs.
    destruct Hwf as [Hlen Hok Hun Hn]. split; [split |]; simpl; rewrite ?Hjobs, ?Hnext.
    + by rewrite length_insert.
    + apply Forall_insert; [done |]. right.
      destruct (Forall_lookup_1 _ _ _ _ Hok Hj) as [(Hp0 & _) | (_ & Hjid & _)]; [lia |].
      simpl. repeat split; [lia | done | done].
    + eapply unique_pids_insert; [done.. |]. intros _. by left.
    + done.
    + by apply mode_ok_insert.
  - simpl in Hc. injection Hc as <-. split; simpl.
    + by apply wf_deletejob, wf_printf.
    + by apply (mode_ok_deletejob (printf _ _)).
  - simpl in Hc. injection Hc as <-. split; simpl.
    + by apply wf_deletejob.
    + by apply mode_ok_deletejob.
Qed.

Lemma shell_inv_sigchld_handler reports : forall st md st',
  shell_inv (st, md) ->
  sigchld_handler st reports = Some st' ->
  shell_inv (st', md).
Proof.
  induction reports as [|[wait_pid chld_status] rest IH]; intros st md st' Hinv Hrun; simpl in Hrun.
  - by injection Hrun as <-.
  - destruct (wait_pid <? 1); [by injection Hrun as <- |].
    destruct (sigchld_child st wait_pid chld_status) as [st1|] eqn:Hc; [| done].
    simpl in Hrun. eapply IH; [| exact Hrun].
    by eapply shell_inv_sigchld_child.
Qed.

(** The table after [addjob] of a job that is not Foreground, or of the
    Foreground job [p]. *)
Lemma mode_ok_addjob_bg st p cmd :
  1 <= nextjid st -> mode_ok (jobs st) Reading ->
  mode_ok (jobs (snd (addjob st p BG cmd))) Reading.
Proof.
  intros Hn Hm.
  destruct (addjob_cases st p BG cmd Hn) as [[-> _] | (_ & i & j & _ & _ & -> & _)]; [done |].
  by apply (mode_ok_insert _ Reading).
Qed.

Lemma mode_ok_addjob_fg st p pc cmd :
  1 <= nextjid st -> 1 <= p -> mode_ok (jobs st) Reading ->
  mode_ok (jobs (snd (addjob st p FG cmd))) (Waiting p pc).
Proof.
  intros Hn Hp Hm. simpl in *. split; [done |].
  assert (Forall (fun j => state j = FG -> pid j = p) (jobs st)) as Hall.
  { eapply Forall_impl; [exact Hm |]. by intros j Hj Hfg. }
  destruct (addjob_cases st p FG cmd Hn) as [[-> _] | (_ & i & j & _ & _ & -> & _)]; [done |].
  by apply Forall_insert.
Qed.

(** The built-in commands leave the table and the counter alone. *)
Lemma builtin_cmd_returned strcmp1 st argv c :
  builtin_cmd strcmp1 st argv = Some c ->
  match c with
  | Returned st' => jobs st' = jobs st /\ nextjid st' = nextjid st
  | Exit _ _ => True
  | Waitfg _ _ | Execve _ => False
  end.
Proof.
  unfold builtin_cmd. destruct (_ || _); [| done].
  destruct (String.eqb _ "quit"); [by intros [= <-] |].
  destruct (String.eqb _ "jobs"); [by intros [= <-] |].
  intros [= <-]. pose proof (do_bgfg_only_prints strcmp1 st argv) as (? & ? & _). done.
Qed.

Lemma wf_same_table st st' :
  jobs st' = jobs st -> nextjid st' = nextjid st -> wf st -> wf st'.
Proof. intros Hj Hn [Hlen Hok Hun Hnext]. split; by rewrite ?Hj, ?Hn. Qed.

Lemma shell_inv_main_step s s' : shell_inv s -> main_step s s' -> shell_inv s'.
Proof.
  intros [Hwf Hm] Hstep. destruct Hstep as
    [f st cmd argv bg fk st' Hfresh Hev | f st cmd argv bg fk st' p Hfresh Hev
    | st p pc Hpoll | st p pc i Hpoll]; cbn [fst snd] in *.
  - (* eval returned *)
    unfold eval in Hev. destruct argv as [|argv0 rest]; [by injection Hev as <- |].
    destruct (builtin_cmd f st (argv0 :: rest)) as [c|] eqn:Hb.
    { subst c. apply builtin_cmd_returned in Hb as [Hj Hn].
      split; cbn [fst snd]; [by eapply wf_same_table | by rewrite Hj]. }
    destruct fk as [e|failed|p]; [done | by destruct failed |].
    destruct bg; [| done]. injection Hev as <-. destruct Hfresh as [Hp Hfresh].
    split; cbn [fst snd].
    + apply wf_printf. by apply wf_addjob.
    + apply (mode_ok_addjob_bg st p cmd); [by destruct Hwf | done].
  - (* eval entered waitfg *)
    unfold eval in Hev. destruct argv as [|argv0 rest]; [done |].
    destruct (builtin_cmd f st (argv0 :: rest)) as [c|] eqn:Hb.
    { subst c. by apply builtin_cmd_returned in Hb. }
    destruct fk as [e|failed|q]; [done | by destruct failed |].
    destruct bg; [done |]. injection Hev as <- <-. destruct Hfresh as [Hp Hfresh].
    split; cbn [fst snd].
    + by apply wf_addjob.
    + apply mode_ok_addjob_fg; [by destruct Hwf | done | done].
  - (* waitfg returned *)
    split; [done |]. cbn [fst snd mode_ok]. destruct Hm as [Hp Hfg].
    assert (wf_table (jobs st)) as Hwt by (destruct Hwf; by split).
    destruct (waitfg_poll_spec (jobs st) p pc Hwt) as [[Hdone _] | [_ (i & Hi)]];
      [| congruence].
    apply Forall_lookup. intros k j Hj Hs.
    pose proof (Forall_lookup_1 _ _ _ _ Hfg Hj Hs) as Hpid.
    assert (active j) as Ha by (unfold active; lia).
    destruct Hdone as [Hno | (k' & j' & Hj' & Ha' & Hp' & Hs')].
    + by apply (Hno k j).
    + destruct Hwt as [_ Hun].
      assert (k' = k) as -> by (apply (Hun k' k j' j); [done.. | congruence]).
      congruence.
  - (* waitfg sleeps again *)
    done.
Qed.

Lemma shell_inv_handler_step s s' : shell_inv s -> handler_step s s' -> shell_inv s'.
Proof.
  intros Hinv Hstep. destruct Hstep as [st md reports st' Hrun | st md | st md].
  - by eapply shell_inv_sigchld_handler.
  - destruct Hinv as [Hwf Hm]. split; [by apply (wf_same_table st) | done].
  - destruct Hinv as [Hwf Hm]. split; [by apply (wf_same_table st) | done].
Qed.

Lemma shell_inv_init v : shell_inv (init_shell v, Reading).
Proof.
  split; simpl.
  - wf_by_computation.
  - by apply (bool_decide_unpack _); vm_compute.
Qed.

Lemma reachable_shell_inv s : reachable s -> shell_inv s.
Proof.
  intros [v Hrun]. revert s Hrun. apply rtc_ind_r.
  - apply shell_inv_init.
  - intros s1 s2 _ [Hstep | Hstep] IH.
    + by eapply shell_inv_main_step.
    + by eapply shell_inv_handler_step.
Qed.

(** Every state the shell reaches is well-shaped. *)
Lemma reachable_wf s : reachable s -> wf s.1.
Proof. by intros [Hwf _]%reachable_shell_inv. Qed.

(** C7.  In every state the shell reaches by evaluating command lines
    (built-ins, background and foreground jobs), by waiting in [waitfg] and
    by running its handlers, at most one active job is Foreground. *)
Theorem reachable_at_most_one_fg s :
  reachable s -> at_most_one_fg (jobs s.1).
Proof.
  intros [[_ _ Hun _] Hm]%reachable_shell_inv i1 i2 j1 j2 H1 H2 Ha1 Ha2 Hs1 Hs2.
  destruct s as [st [|p pc]]; simpl in *.
  - by pose proof (Forall_lookup_1 _ _ _ _ Hm H1).
  - destruct Hm as [_ Hfg].
    pose proof (Forall_lookup_1 _ _ _ _ Hfg H1 Hs1).
    pose proof (Forall_lookup_1 _ _ _ _ Hfg H2 Hs2).
    apply (Hun i1 i2 j1 j2); [done.. | congruence].
Qed.

Lemma reachable_at_most_one_fg_witness :
  at_most_one_fg (jobs (spawn false (bg_jobs 15) 5, Waiting 5 Lookup).1).
Proof.
  apply (reachable_at_most_one_fg (spawn false (bg_jobs 15) 5, Waiting 5 Lookup)).
  apply reachable_spawn_fg; [exact reachable_bg_jobs_15 |].
  apply fork_fresh_check. vm_compute. reflexivity.
Defined.

(** The table operations by themselves do not keep this invariant: two
    [addjob] calls with the state FG leave two Foreground jobs.  The shell
    never makes the second call before [waitfg] has returned for the
    first, which is what [shell_inv_main_step] uses. *)
Remark addjob_fg_twice :
  ~ at_most_one_fg
      (jobs (snd (addjob (snd (addjob (init_shell false) 5 FG sleep_fg)) 6 FG sleep_fg))).
Proof.
  intros H.
  specialize (H 0%nat 1%nat (mk_job 5 1 FG sleep_fg) (mk_job 6 2 FG sleep_fg)
                eq_refl eq_refl).
  by specialize (H ltac:(done) ltac:(done) eq_refl eq_refl).
Qed.

(** * Further properties of the job-control code *)

(** ** The registry *)

Lemma first_slot_insert_same test js i x x' :
  js !! i = Some x -> test x' = test x ->
  first_slot test (<[i := x']> js) = first_slot test js.
Proof.
  revert i. induction js as [|y js IH]; intros [|i] Hx Ht; simpl in *; try done.
  - injection Hx as ->. by rewrite Ht.
  - by rewrite (IH i Hx Ht).
Qed.

(** X1.  [addjob] succeeds exactly when the pid is at least 1 and the table
    has an empty slot.  It then writes the job, with the counter as its
    jobId, into the first empty slot and leaves every other slot as it was;
    when it fails, the table and the counter are unchanged.  It never sends
    a signal. *)
Theorem addjob_spec st p s cmd :
  (fst (addjob st p s cmd) = true <->
     1 <= p /\ exists i j, jobs st !! i = Some j /\ pid j = 0) /\
  (fst (addjob st p s cmd) = true ->
     exists i j,
       jobs st !! i = Some j /\ pid j = 0 /\
       (forall k y, jobs st !! k = Some y -> (k < i)%nat -> pid y <> 0) /\
       jobs (snd (addjob st p s cmd)) = <[i := mk_job p (nextjid st) s cmd]> (jobs st)) /\
  (fst (addjob st p s cmd) = false ->
     jobs (snd (addjob st p s cmd)) = jobs st /\
     nextjid (snd (addjob st p s cmd)) = nextjid st) /\
  kills (snd (addjob st p s cmd)) = kills st.
Proof.
  unfold addjob. destruct (Z.ltb_spec p 1) as [Hlt|Hge]; cbn [fst snd].
  { split; [split; [done | intros [? _]; lia] |]. by repeat split. }
  destruct (first_slot _ (jobs st)) as [i|] eqn:Hf; cbn [fst snd].
  - apply first_slot_Some in Hf as (j & Hj & Hp%Z.eqb_eq & Hmin).
    split; [split; [intros _; split; [lia | by exists i, j] | done] |].
    split; [| split; [done | by destruct (verbose st)]].
    intros _. exists i, j. split; [done |]. split; [done |].
    split; [| by destruct (verbose st)].
    intros k y Hy Hk. specialize (Hmin k y Hy Hk). simpl in Hmin. lia.
  - apply first_slot_None in Hf.
    split; [split; [done |] | by repeat split].
    intros (_ & i & j & Hj & Hp).
    pose proof (Forall_lookup_1 _ _ _ _ Hf Hj) as Hne. simpl in Hne. lia.
Qed.

(** The two outcomes of [addjob]. *)
Lemma addjob_result st p s cmd :
  (fst (addjob st p s cmd) = false /\
   jobs (snd (addjob st p s cmd)) = jobs st /\
   nextjid (snd (addjob st p s cmd)) = nextjid st) \/
  (fst (addjob st p s cmd) = true /\ 1 <= p /\
   exists i j, jobs st !! i = Some j /\ pid j = 0 /\
     jobs (snd (addjob st p s cmd)) = <[i := mk_job p (nextjid st) s cmd]> (jobs st)).
Proof.
  unfold addjob. destruct (Z.ltb_spec p 1); [by left |].
  destruct (first_slot _ (jobs st)) as [i|] eqn:Hf; [| by left].
  apply first_slot_Some in Hf as (j & Hj & Hp%Z.eqb_eq & _).
  right. repeat split; [done |]. exists i, j. by destruct (verbose st).
Qed.

(** X2.  After a successful [addjob] of a pid that no slot held,
    [getjobpid] finds the new job, stored with the given state and command
    line and with the old counter as jobId, and [pid2jid] maps the pid to
    that jobId. *)
Theorem addjob_then_lookup st p s cmd :
  Forall (fun j => pid j <> p) (jobs st) ->
  fst (addjob st p s cmd) = true ->
  exists i,
    getjobpid (jobs (snd (addjob st p s cmd))) p = Some i /\
    jobs (snd (addjob st p s cmd)) !! i = Some (mk_job p (nextjid st) s cmd) /\
    pid2jid (jobs (snd (addjob st p s cmd))) p = nextjid st.
Proof.
  intros Hfresh Hok.
  destruct (addjob_result st p s cmd) as [[Hfail _] | (_ & Hp & i & j & Hj & Hp0 & Hjobs)].
  { congruence. }
  rewrite Hjobs. exists i.
  assert (i < length (jobs st))%nat as Hlt by (by eapply lookup_lt_Some).
  assert (first_slot (fun j => pid j =? p) (<[i := mk_job p (nextjid st) s cmd]> (jobs st))
          = Some i) as Hfs.
  { apply first_slot_Some. exists (mk_job p (nextjid st) s cmd).
    split; [by apply list_lookup_insert_eq |]. split; [simpl; lia |].
    intros k y Hy Hk. rewrite list_lookup_insert_ne in Hy by lia.
    pose proof (Forall_lookup_1 _ _ _ _ Hfresh Hy) as Hne. simpl in *. lia. }
  unfold getjobpid, pid2jid. destruct (Z.ltb_spec p 1); [lia |].
  rewrite Hfs, list_lookup_insert_eq by done. done.
Qed.

Lemma addjob_then_lookup_witness :
  exists i,
    getjobpid (jobs (snd (addjob (bg_jobs 3) 200 FG sleep_fg))) 200 = Some i /\
    jobs (snd (addjob (bg_jobs 3) 200 FG sleep_fg)) !! i
      = Some (mk_job 200 (nextjid (bg_jobs 3)) FG sleep_fg) /\
    pid2jid (jobs (snd (addjob (bg_jobs 3) 200 FG sleep_fg))) 200 = nextjid (bg_jobs 3).
Proof.
  apply (addjob_then_lookup (bg_jobs 3) 200 FG sleep_fg).
  - by apply (bool_decide_unpack _); vm_compute.
  - reflexivity.
Defined.

Lemma getjobpid_deletejob st p :
  wf st ->
  getjobpid (jobs (snd (deletejob st p))) p = None /\
  pid2jid (jobs (snd (deletejob st p))) p = 0 /\
  (forall q, q <> p ->
     getjobpid (jobs (snd (deletejob st p))) q = getjobpid (jobs st) q).
Proof.
  intros [Hlen Hok Hun Hn].
  assert (forall js, getjobpid js p = None -> pid2jid js p = 0) as Hp2j.
  { intros js. unfold getjobpid, pid2jid. destruct (p <? 1); [done |]. by intros ->. }
  unfold deletejob. destruct (Z.ltb_spec p 1) as [Hlt|Hge]; simpl.
  { assert (getjobpid (jobs st) p = None) as Hnone.
    { unfold getjobpid. by destruct (Z.ltb_spec p 1); [| lia]. }
    by rewrite (Hp2j _ Hnone). }
  destruct (first_slot (fun j => pid j =? p) (jobs st)) as [i|] eqn:Hf; simpl.
  - pose proof Hf as (j & Hj & Hp%Z.eqb_eq & _)%first_slot_Some.
    rewrite (alter_as_insert clearjob _ _ _ Hj).
    assert (getjobpid (<[i := clearjob j]> (jobs st)) p = None) as Hnone.
    { apply getjobpid_None. intros (_ & k & y & Hy & Hpy).
      apply list_lookup_insert_Some in Hy as [(<- & <- & _) | (Hne & Hy)].
      - simpl in Hpy. lia.
      - apply Hne. apply (Hun i k j y); [done.. | unfold active; lia | congruence]. }
    split; [done |]. split; [by apply Hp2j |].
    intros q Hq. unfold getjobpid. destruct (q <? 1) eqn:Hq1; [done |].
    apply (first_slot_insert_same _ _ _ j); [done |]. cbn [clearjob pid].
    apply Z.ltb_ge in Hq1.
    destruct (Z.eqb_spec 0 q), (Z.eqb_spec (pid j) q); first [done | exfalso; lia].
  - assert (getjobpid (jobs st) p = None) as Hnone.
    { unfold getjobpid. destruct (Z.ltb_spec p 1); [done | exact Hf]. }
    by rewrite (Hp2j _ Hnone).
Qed.

(** X3.  In a well-shaped state, after [deletejob] of a pid no slot holds
    that pid any more ([getjobpid] fails and [pid2jid] gives 0), and the
    lookup of every other pid gives the slot it gave before. *)
Theorem deletejob_then_lookup st p :
  wf st ->
  getjobpid (jobs (snd (deletejob st p))) p = None /\
  pid2jid (jobs (snd (deletejob st p))) p = 0 /\
  (forall q, q <> p ->
     getjobpid (jobs (snd (deletejob st p))) q = getjobpid (jobs st) q).
Proof. apply getjobpid_deletejob. Qed.

Lemma deletejob_then_lookup_witness :
  getjobpid (jobs (snd (deletejob (bg_jobs 3) 102))) 102 = None /\
  pid2jid (jobs (snd (deletejob (bg_jobs 3) 102))) 102 = 0 /\
  (forall q, q <> 102 ->
     getjobpid (jobs (snd (deletejob (bg_jobs 3) 102))) q = getjobpid (jobs (bg_jobs 3)) q).
Proof.
  apply (deletejob_then_lookup (bg_jobs 3) 102). wf_by_computation.
Defined.

Lemma maxjid_bounds js :
  (forall i j, js !! i = Some j -> jid j <= maxjid js) /\
  0 <= maxjid js /\
  (maxjid js = 0 \/ exists i j, js !! i = Some j /\ jid j = maxjid js).
Proof.
  rewrite maxjid_foldr. induction js as [|x js (IHub & IH0 & IHat)].
  - repeat split; [done | done | by left].
  - rewrite fmap_cons. cbn [foldr]. repeat split.
    + intros [|i] j Hj; simpl in Hj.
      * injection Hj as ->. lia.
      * specialize (IHub i j Hj). lia.
    + lia.
    + destruct (Z.max_spec (jid x) (foldr Z.max 0 (jid <$> js))) as [[_ ->] | [_ ->]].
      * destruct IHat as [H0 | (i & j & Hj & Hjid)]; [by left |].
        right. by exists (S i), j.
      * right. by exists 0%nat, x.
Qed.

(** X4.  [maxjid] is an upper bound of the jobIds of all slots, it is never
    negative, and it is 0 or the jobId of some slot. *)
Theorem maxjid_spec js :
  (forall i j, js !! i = Some j -> jid j <= maxjid js) /\
  0 <= maxjid js /\
  (maxjid js = 0 \/ exists i j, js !! i = Some j /\ jid j = maxjid js).
Proof. apply maxjid_bounds. Qed.

(** X5.  On a table of well-shaped slots [getjobjid] never returns an empty
    slot: the slot it returns holds an active job with the jobId asked for,
    and it fails exactly when no active job has that jobId. *)
Theorem getjobjid_spec js n :
  Forall slot_ok js ->
  (forall i, getjobjid js n = Some i ->
     exists j, js !! i = Some j /\ jid j = n /\ active j) /\
  (getjobjid js n = None <->
     ~ exists i j, js !! i = Some j /\ active j /\ jid j = n).
Proof.
  intros Hok.
  assert (forall i j, js !! i = Some j -> active j -> 1 <= jid j) as Hjid.
  { intros i j Hj Ha. destruct (Forall_lookup_1 _ _ _ _ Hok Hj) as [(Hp & _) | (_ & H1 & _)];
      [by unfold active in Ha | done]. }
  assert (forall i j, js !! i = Some j -> 1 <= jid j -> active j) as Hact.
  { intros i j Hj H1. destruct (Forall_lookup_1 _ _ _ _ Hok Hj) as [(_ & H0 & _) | (Hp & _)];
      [lia | unfold active; lia]. }
  unfold getjobjid. destruct (Z.ltb_spec n 1) as [Hlt|Hge].
  - split; [done |]. split; [| done]. intros _ (i & j & Hj & Ha & Hn).
    specialize (Hjid i j Hj Ha). lia.
  - split.
    + intros i (j & Hj & Hn%Z.eqb_eq & _)%first_slot_Some.
      exists j. repeat split; [done.. |]. apply (Hact i j Hj). lia.
    + rewrite first_slot_None, Forall_lookup. split.
      * intros Hall (i & j & Hj & _ & Hn). specialize (Hall i j Hj). simpl in Hall. lia.
      * intros Hno i j Hj. apply Z.eqb_neq. intros Hn. apply Hno.
        exists i, j. repeat split; [done | | done]. apply (Hact i j Hj). lia.
Qed.

Lemma getjobjid_spec_witness :
  getjobjid (jobs (bg_jobs 3)) 7 = None <->
  ~ exists i j, jobs (bg_jobs 3) !! i = Some j /\ active j /\ jid j = 7.
Proof.
  apply (getjobjid_spec (jobs (bg_jobs 3)) 7).
  by apply (bool_decide_unpack _); vm_compute.
Defined.

(** ** Invariants of the running shell *)

(** X6.  Every state the shell reaches is well-shaped: the table has 16
    slots, each slot is cleared (pid 0, jobId 0, state UNDEF) or holds a
    job with pid at least 1, jobId at least 1 and a state other than UNDEF,
    no two active slots hold the same pid, and the counter is at least 1. *)
Theorem reachable_well_shaped s :
  reachable s -> wf s.1.
Proof. by intros [Hwf _]%reachable_shell_inv. Qed.

Lemma reachable_well_shaped_witness : wf (after_exit_101, Reading).1.
Proof.
  apply (reachable_well_shaped (after_exit_101, Reading)).
  eapply reachable_step; [exact reachable_bg_jobs_15 |].
  right. apply (step_sigchld _ _ [(101, WIFEXITED 0)]). by vm_compute.
Defined.

(** X7.  Whenever the shell is back in its read loop no job is in the
    Foreground state; while it is inside [waitfg(p)], [p] is at least 1 and
    a job in the Foreground state can only be the job [p]. *)
Theorem reachable_foreground_discipline st md :
  reachable (st, md) ->
  match md with
  | Reading => forall i j, jobs st !! i = Some j -> state j <> FG
  | Waiting p _ =>
      1 <= p /\ forall i j, jobs st !! i = Some j -> state j = FG -> pid j = p
  end.
Proof.
  intros [_ Hm]%reachable_shell_inv. destruct md as [|p pc]; cbn [fst snd mode_ok] in Hm.
  - intros i j Hj. by apply (Forall_lookup_1 _ _ _ _ Hm Hj).
  - destruct Hm as [Hp Hfg]. split; [done |].
    intros i j Hj. by apply (Forall_lookup_1 _ _ _ _ Hfg Hj).
Qed.

Lemma reachable_foreground_discipline_witness :
  1 <= 5 /\
  forall i j, jobs (spawn false (bg_jobs 15) 5) !! i = Some j -> state j = FG -> pid j = 5.
Proof.
  apply (reachable_foreground_discipline (spawn false (bg_jobs 15) 5) (Waiting 5 Lookup)).
  apply reachable_spawn_fg; [exact reachable_bg_jobs_15 |].
  apply fork_fresh_check. vm_compute. reflexivity.
Defined.

(** ** The handlers *)

Lemma fgpid_the_fg_job js i j :
  (forall k y, js !! k = Some y -> state y = FG -> pid y = pid j) ->
  js !! i = Some j -> state j = FG ->
  fgpid js = pid j.
Proof.
  intros Hall Hj Hs. unfold fgpid.
  destruct (first_slot _ js) as [k|] eqn:Hf.
  - apply first_slot_Some in Hf as (y & Hy & Ht & _). rewrite Hy. simpl.
    apply (Hall k y Hy). by destruct (state y).
  - apply first_slot_None in Hf.
    pose proof (Forall_lookup_1 _ _ _ _ Hf Hj) as Hne. simpl in Hne.
    by rewrite Hs in Hne.
Qed.

(** X8.  In every state the shell reaches, if a job is in the Foreground
    state then ctrl-c and ctrl-z are forwarded to it: [sigint_handler]
    (resp. [sigtstp_handler]) makes exactly one [kill] call, with the
    negated pid of that job (its process group) and SIGINT (resp. SIGTSTP),
    and changes neither the table nor the counter nor the output. *)
Theorem keyboard_handlers_forward_to_fg st md i j :
  reachable (st, md) ->
  jobs st !! i = Some j -> state j = FG ->
  1 <= pid j /\
  sigint_handler st =
    mk_shell (jobs st) (nextjid st) (verbose st) (stdout st)
             (kills st ++ [(- pid j, SIGINT)]) /\
  sigtstp_handler st =
    mk_shell (jobs st) (nextjid st) (verbose st) (stdout st)
             (kills st ++ [(- pid j, SIGTSTP)]).
Proof.
  intros [_ Hm]%reachable_shell_inv Hj Hs. cbn [fst snd] in Hm.
  destruct md as [|p pc]; cbn [mode_ok] in Hm.
  { by pose proof (Forall_lookup_1 _ _ _ _ Hm Hj). }
  destruct Hm as [Hp Hfg].
  pose proof (Forall_lookup_1 _ _ _ _ Hfg Hj Hs) as Hpj.
  assert (fgpid (jobs st) = pid j) as Hfgpid.
  { apply (fgpid_the_fg_job _ i); [| done..].
    intros k y Hy Hsy. rewrite Hpj. by apply (Forall_lookup_1 _ _ _ _ Hfg Hy). }
  unfold sigint_handler, sigtstp_handler, kill. rewrite Hfgpid.
  split; [lia | done].
Qed.

Lemma keyboard_handlers_forward_to_fg_witness :
  1 <= 5 /\
  sigint_handler (spawn false (bg_jobs 15) 5) =
    mk_shell (jobs (spawn false (bg_jobs 15) 5)) (nextjid (spawn false (bg_jobs 15) 5))
             (verbose (spawn false (bg_jobs 15) 5)) (stdout (spawn false (bg_jobs 15) 5))
             (kills (spawn false (bg_jobs 15) 5) ++ [(- 5, SIGINT)]) /\
  sigtstp_handler (spawn false (bg_jobs 15) 5) =
    mk_shell (jobs (spawn false (bg_jobs 15) 5)) (nextjid (spawn false (bg_jobs 15) 5))
             (verbose (spawn false (bg_jobs 15) 5)) (stdout (spawn false (bg_jobs 15) 5))
             (kills (spawn false (bg_jobs 15) 5) ++ [(- 5, SIGTSTP)]).
Proof.
  apply (keyboard_handlers_forward_to_fg (spawn false (bg_jobs 15) 5) (Waiting 5 Lookup)
           15%nat (mk_job 5 16 FG sleep_fg)).
  - apply reachable_spawn_fg; [exact reachable_bg_jobs_15 |].
    apply fork_fresh_check. vm_compute. reflexivity.
  - reflexivity.
  - reflexivity.
Defined.

Lemma pid2jid_getjobpid js p i j :
  getjobpid js p = Some i -> js !! i = Some j -> pid2jid js p = jid j.
Proof.
  unfold getjobpid, pid2jid. destruct (p <? 1); [done |].
  intros -> ->. done.
Qed.

(** X9.  For a child reported as exited or as terminated by a signal, in a
    well-shaped state, the handler removes the job: afterwards
    [getjobpid] fails for its pid and finds every other pid where it was.
    An exit is silent; a termination prints
    [Job [jobId] (pid) terminated by signal n], where jobId is what
    [pid2jid] gave before the removal (0 when the pid was not in the table,
    in which case nothing else changes). *)
Theorem sigchld_child_removes st p chld_status :
  wf st ->
  (forall sig, chld_status <> WIFSTOPPED sig) ->
  exists st',
    sigchld_child st p chld_status = Some st' /\
    getjobpid (jobs st') p = None /\
    (forall q, q <> p -> getjobpid (jobs st') q = getjobpid (jobs st) q) /\
    (getjobpid (jobs st) p = None -> jobs st' = jobs st /\ nextjid st' = nextjid st) /\
    kills st' = kills st /\
    stdout st' =
      match chld_status with
      | WIFSIGNALED sig =>
          stdout st ++ "Job [" ++ fmt_d (pid2jid (jobs st) p) ++ "] (" ++ fmt_d p
                    ++ ") terminated by signal " ++ fmt_d sig ++ nl
      | _ => stdout st
      end.
Proof.
  intros Hwf Hns.
  assert (forall st0, wf st0 ->
            getjobpid (jobs (snd (deletejob st0 p))) p = None /\
            (forall q, q <> p ->
               getjobpid (jobs (snd (deletejob st0 p))) q = getjobpid (jobs st0) q) /\
            (getjobpid (jobs st0) p = None ->
               jobs (snd (deletejob st0 p)) = jobs st0 /\
               nextjid (snd (deletejob st0 p)) = nextjid st0) /\
            kills (snd (deletejob st0 p)) = kills st0 /\
            stdout (snd (deletejob st0 p)) = stdout st0) as Hdel.
  { intros st0 Hwf0. destruct (getjobpid_deletejob st0 p Hwf0) as (H1 & _ & H2).
    split; [done |]. split; [done |].
    unfold deletejob, getjobpid. destruct (p <? 1); [done |].
    by destruct (first_slot _ (jobs st0)). }
  destruct chld_status as [sig|sig|code].
  - by destruct (Hns sig).
  - eexists. split; [reflexivity |]. cbn [snd].
    by apply (Hdel (printf st _)), wf_printf.
  - eexists. split; [reflexivity |]. by apply Hdel.
Qed.

Lemma sigchld_child_removes_witness :
  exists st',
    sigchld_child (bg_jobs 3) 102 (WIFSIGNALED 9) = Some st' /\
    getjobpid (jobs st') 102 = None /\
    (forall q, q <> 102 -> getjobpid (jobs st') q = getjobpid (jobs (bg_jobs 3)) q) /\
    (getjobpid (jobs (bg_jobs 3)) 102 = None ->
       jobs st' = jobs (bg_jobs 3) /\ nextjid st' = nextjid (bg_jobs 3)) /\
    kills st' = kills (bg_jobs 3) /\
    stdout st' =
      stdout (bg_jobs 3) ++ "Job [" ++ fmt_d (pid2jid (jobs (bg_jobs 3)) 102) ++ "] ("
        ++ fmt_d 102 ++ ") terminated by signal " ++ fmt_d 9 ++ nl.
Proof.
  apply (sigchld_child_removes (bg_jobs 3) 102 (WIFSIGNALED 9)).
  - wf_by_computation.
  - discriminate.
Defined.

(** X10.  For a child reported as stopped whose pid [getjobpid] finds, the
    handler prints [Job [jobId] (pid) stopped by signal n] with the jobId
    of that job and sets the state of that slot to Stopped; pid, jobId and
    command line of the slot, every other slot, the counter and the signals
    sent are unchanged: a stopped job is not removed. *)
Theorem sigchld_child_stopped st p sig i j :
  getjobpid (jobs st) p = Some i -> jobs st !! i = Some j ->
  sigchld_child st p (WIFSTOPPED sig) =
    Some (mk_shell (<[i := mk_job (pid j) (jid j) ST (cmdline j)]> (jobs st))
                   (nextjid st) (verbose st)
                   (stdout st ++ "Job [" ++ fmt_d (jid j) ++ "] (" ++ fmt_d p
                           ++ ") stopped by signal " ++ fmt_d sig ++ nl)
                   (kills st)).
Proof.
  intros Hg Hj. unfold sigchld_child. cbn [jobs printf].
  rewrite Hg, (pid2jid_getjobpid _ _ _ _ Hg Hj), (alter_as_insert _ _ _ _ Hj). done.
Qed.

Lemma sigchld_child_stopped_witness :
  sigchld_child (bg_jobs 3) 102 (WIFSTOPPED 20) =
    Some (mk_shell (<[1%nat := mk_job 102 2 ST sleep_bg]> (jobs (bg_jobs 3)))
                   (nextjid (bg_jobs 3)) (verbose (bg_jobs 3))
                   (stdout (bg_jobs 3) ++ "Job [" ++ fmt_d 2 ++ "] (" ++ fmt_d 102
                           ++ ") stopped by signal " ++ fmt_d 20 ++ nl)
                   (kills (bg_jobs 3))).
Proof.
  apply (sigchld_child_stopped (bg_jobs 3) 102 20 1%nat (mk_job 102 2 BG sleep_bg)).
  - reflexivity.
  - reflexivity.
Defined.

Lemma set_state_ST_twice j : set_state ST (set_state ST j) = set_state ST j.
Proof. done. Qed.

(** What one pass of the handler's loop can do to a slot. *)
Lemma sigchld_child_slot st p chld_status st' i j :
  1 <= p ->
  sigchld_child st p chld_status = Some st' ->
  jobs st !! i = Some j ->
  kills st' = kills st /\
  (jobs st' !! i = Some j \/
   (pid j = p /\
    (jobs st' !! i = Some (clearjob j) \/ jobs st' !! i = Some (set_state ST j)))).
Proof.
  intros Hp Hc Hj.
  assert (forall st0, jobs st0 = jobs st ->
            kills (snd (deletejob st0 p)) = kills st0 /\
            (jobs (snd (deletejob st0 p)) !! i = Some j \/
             (pid j = p /\ jobs (snd (deletejob st0 p)) !! i = Some (clearjob j)))) as Hdel.
  { intros st0 Hjobs. unfold deletejob.
    destruct (p <? 1); cbn [snd]; [split; [done | left; by rewrite Hjobs] |].
    destruct (first_slot _ (jobs st0)) as [k|] eqn:Hf; cbn [snd];
      [| split; [done | left; by rewrite Hjobs]].
    apply first_slot_Some in Hf as (y & Hy & Hpy%Z.eqb_eq & _).
    split; [done |]. cbn [jobs set_nextjid set_jobs].
    rewrite (alter_as_insert _ _ _ _ Hy). rewrite Hjobs in *.
    destruct (decide (k = i)) as [->|Hne].
    - right. simplify_eq. split; [done |].
      apply list_lookup_insert_eq. by eapply lookup_lt_Some.
    - left. by rewrite list_lookup_insert_ne. }
  destruct chld_status as [sig|sig|code].
  - apply sigchld_child_stopped_Some in Hc as (k & Hg & Hjobs & _ & Hk).
    split; [done |]. apply getjobpid_Some in Hg as (_ & y & Hy & Hpy).
    rewrite Hjobs, (alter_as_insert _ _ _ _ Hy).
    destruct (decide (k = i)) as [->|Hne].
    + right. simplify_eq. split; [done |]. right.
      apply list_lookup_insert_eq. by eapply lookup_lt_Some.
    + left. by rewrite list_lookup_insert_ne.
  - simpl in Hc. injection Hc as <-.
    destruct (Hdel (printf st ("Job [" ++ fmt_d (pid2jid (jobs st) p) ++ "] ("
                ++ fmt_d p ++ ") terminated by signal " ++ fmt_d sig ++ nl)) eq_refl)
      as [Hk [H|[H1 H2]]]; split; auto.
  - simpl in Hc. injection Hc as <-.
    destruct (Hdel st eq_refl) as [Hk [H|[H1 H2]]]; split; auto.
Qed.

Lemma sigchld_handler_slots reports : forall st st' i j,
  sigchld_handler st reports = Some st' ->
  jobs st !! i = Some j ->
  kills st' = kills st /\
  (jobs st' !! i = Some j \/
   (1 <= pid j /\ pid j ∈ (fst <$> reports) /\
    (jobs st' !! i = Some (clearjob j) \/ jobs st' !! i = Some (set_state ST j)))).
Proof.
  induction reports as [|[p chld_status] rest IH]; intros st st' i j Hrun Hj;
    cbn [sigchld_handler] in Hrun.
  - injection Hrun as <-. auto.
  - destruct (Z.ltb_spec p 1) as [Hlt|Hge]; [injection Hrun as <-; auto |].
    destruct (sigchld_child st p chld_status) as [st1|] eqn:Hc; [| done].
    cbn in Hrun.
    destruct (sigchld_child_slot _ _ _ _ _ _ Hge Hc Hj) as [Hk1 Hslot].
    rewrite fmap_cons. cbn [fst].
    destruct Hslot as [Hsame | [Hpj [Hcl | Hst]]].
    + destruct (IH _ _ _ _ Hrun Hsame) as [Hk [H | (H1 & H2 & H3)]].
      * split; [congruence | by left].
      * split; [congruence |]. right. split; [done |]. split; [| done].
        by apply list_elem_of_further.
    + destruct (IH _ _ _ _ Hrun Hcl) as [Hk [H | (H1 & _)]].
      * split; [congruence |]. right. split; [lia |]. split; [| by left].
        rewrite Hpj. apply list_elem_of_here.
      * simpl in H1. lia.
    + destruct (IH _ _ _ _ Hrun Hst) as [Hk [H | (H1 & _ & [H3 | H3])]].
      * split; [congruence |]. right. split; [lia |]. split; [| by right].
        rewrite Hpj. apply list_elem_of_here.
      * split; [congruence |]. right. split; [lia |]. split; [| by left].
        rewrite Hpj. apply list_elem_of_here.
      * split; [congruence |]. right. split; [lia |]. split; [| by right].
        rewrite Hpj. apply list_elem_of_here.
Qed.

Lemma sigchld_child_kills st p chld_status st' :
  sigchld_child st p chld_status = Some st' -> kills st' = kills st.
Proof.
  destruct chld_status; cbn [sigchld_child].
  - by intros (_ & _ & _ & _ & ?)%sigchld_child_stopped_Some.
  - intros [= <-]. unfold deletejob. destruct (p <? 1); [done |].
    by destruct (first_slot _ _).
  - intros [= <-]. unfold deletejob. destruct (p <? 1); [done |].
    by destruct (first_slot _ _).
Qed.

Lemma sigchld_handler_kills reports : forall st st',
  sigchld_handler st reports = Some st' -> kills st' = kills st.
Proof.
  induction reports as [|[p chld_status] rest IH]; intros st st' Hrun;
    cbn [sigchld_handler] in Hrun.
  - by injection Hrun as <-.
  - destruct (p <? 1); [by injection Hrun as <- |].
    destruct (sigchld_child st p chld_status) as [st1|] eqn:Hc; [| done]. cbn in Hrun.
    rewrite (IH _ _ Hrun). by eapply sigchld_child_kills.
Qed.

(** X11.  A run of [sigchld_handler] that does not fault sends no signal
    and changes a slot only if the pid of its job is among the reported
    pids, and then only by clearing the slot or by setting its state to
    Stopped: the handler never adds a job, never touches the job of another
    process and never puts a job into the Foreground or Background state. *)
Theorem sigchld_handler_frame st reports st' :
  sigchld_handler st reports = Some st' ->
  kills st' = kills st /\
  forall i j, jobs st !! i = Some j ->
    jobs st' !! i = Some j \/
    (1 <= pid j /\ pid j ∈ (fst <$> reports) /\
     (jobs st' !! i = Some (clearjob j) \/ jobs st' !! i = Some (set_state ST j))).
Proof.
  intros Hrun. split.
  - by eapply sigchld_handler_kills.
  - intros i j Hj. by apply (sigchld_handler_slots reports st st' i j Hrun).
Qed.

Lemma sigchld_handler_frame_witness :
  kills after_two_reports = kills (bg_jobs 3) /\
  forall i j, jobs (bg_jobs 3) !! i = Some j ->
    jobs after_two_reports !! i = Some j \/
    (1 <= pid j /\ pid j ∈ (fst <$> [(102, WIFSTOPPED 20); (103, WIFEXITED 0)]) /\
     (jobs after_two_reports !! i = Some (clearjob j) \/
      jobs after_two_reports !! i = Some (set_state ST j))).
Proof.
  apply (sigchld_handler_frame (bg_jobs 3) [(102, WIFSTOPPED 20); (103, WIFEXITED 0)]
           after_two_reports).
  vm_compute. reflexivity.
Defined.

(** ** The evaluator and the built-in commands *)

Lemma addjob_on_full_table st p s cmd :
  table_full (jobs st) -> 1 <= p ->
  addjob st p s cmd = (false, printf st ("Tried to create too many jobs" ++ nl)).
Proof.
  intros [_ Hact] Hp. unfold addjob. destruct (Z.ltb_spec p 1); [lia |].
  assert (first_slot (fun j => pid j =? 0) (jobs st) = None) as ->; [| done].
  apply first_slot_None. eapply Forall_impl; [exact Hact |].
  intros j Hj. by apply Z.eqb_neq.
Qed.

(** X12.  A command started while the table holds 16 active jobs runs
    untracked.  [eval] prints [Tried to create too many jobs] and changes
    nothing else of the table; for a background command it then still
    prints a job line, whose jobId is the counter minus one and belongs to
    no new job; for a foreground command it enters [waitfg], which returns
    at its first test, so the shell does not wait for the command. *)
Theorem eval_on_full_table strcmp1 st cmd argv bg p :
  table_full (jobs st) ->
  argv <> [] -> builtin_cmd strcmp1 st argv = None ->
  fork_fresh (jobs st) (Fork_parent p) ->
  eval strcmp1 st cmd argv bg (Fork_parent p) =
    (if bg
     then Returned (printf (printf st ("Tried to create too many jobs" ++ nl))
                           ("[" ++ fmt_d (nextjid st - 1) ++ "] (" ++ fmt_d p ++ ") " ++ cmd))
     else Waitfg (printf st ("Tried to create too many jobs" ++ nl)) p) /\
  waitfg p Lookup [jobs st] = Some 0%nat.
Proof.
  intros Hfull Hargv Hb [Hp Hfresh]. split.
  - unfold eval. destruct argv as [|argv0 rest]; [done |]. rewrite Hb.
    destruct bg; by rewrite addjob_on_full_table.
  - assert (getjobpid (jobs st) p = None) as Hg.
    { apply getjobpid_None. intros (_ & i & j & Hj & Hpj).
      by apply (Forall_lookup_1 _ _ _ _ Hfresh Hj). }
    cbn [waitfg]. rewrite waitfg_poll_S. cbn [waitfg_step]. by rewrite Hg.
Qed.

Lemma eval_on_full_table_witness :
  eval strcmp_percent (bg_jobs 16) sleep_fg ["/bin/sleep"; "5"] false (Fork_parent 300) =
    Waitfg (printf (bg_jobs 16) ("Tried to create too many jobs" ++ nl)) 300 /\
  waitfg 300 Lookup [jobs (bg_jobs 16)] = Some 0%nat.
Proof.
  apply (eval_on_full_table strcmp_percent (bg_jobs 16) sleep_fg ["/bin/sleep"; "5"] false 300).
  - split; [reflexivity |]. by apply (bool_decide_unpack _); vm_compute.
  - discriminate.
  - reflexivity.
  - apply fork_fresh_check. vm_compute. reflexivity.
Defined.

(** X13.  The four built-in commands never fork and never touch the job
    table: for [quit], [jobs], [bg] and [fg] the result of [eval] does not
    depend on the background flag or on what [fork] would return; [quit]
    exits with status 0 and the state as it was; the other three return
    to the read loop with the table, the counter and the signals sent
    unchanged. *)
Theorem builtins_leave_table strcmp1 st cmd argv0 rest bg fk :
  argv0 ∈ ["quit"; "jobs"; "bg"; "fg"] ->
  (forall bg' fk',
     eval strcmp1 st cmd (argv0 :: rest) bg' fk' = eval strcmp1 st cmd (argv0 :: rest) bg fk) /\
  match eval strcmp1 st cmd (argv0 :: rest) bg fk with
  | Returned st' =>
      argv0 <> "quit" /\ jobs st' = jobs st /\ nextjid st' = nextjid st /\ kills st' = kills st
  | Exit st' status => argv0 = "quit" /\ st' = st /\ status = 0
  | Waitfg _ _ | Execve _ => False
  end.
Proof.
  intros Hin.
  assert (exists c, builtin_cmd strcmp1 st (argv0 :: rest) = Some c /\
            match c with
            | Returned st' =>
                argv0 <> "quit" /\ jobs st' = jobs st /\ nextjid st' = nextjid st /\
                kills st' = kills st
            | Exit st' status => argv0 = "quit" /\ st' = st /\ status = 0
            | Waitfg _ _ | Execve _ => False
            end) as (c & Hb & Hc).
  { pose proof (do_bgfg_only_prints strcmp1 st (argv0 :: rest)) as (? & ? & ?).
    unfold builtin_cmd. cbn [lookup list_lookup default from_option id].
    assert (argv0 = "quit" \/ argv0 = "jobs" \/ argv0 = "bg" \/ argv0 = "fg")
      as [-> | [-> | [-> | ->]]]
      by (rewrite !elem_of_cons, elem_of_nil in Hin; tauto);
      cbn; eexists; (split; [reflexivity |]); done. }
  unfold eval. rewrite Hb. done.
Qed.

Lemma builtins_leave_table_witness :
  match eval strcmp_percent (bg_jobs 3) ("jobs" ++ nl) ["jobs"] false (Fork_parent 7) with
  | Returned st' =>
      "jobs" <> "quit" /\ jobs st' = jobs (bg_jobs 3) /\ nextjid st' = nextjid (bg_jobs 3) /\
      kills st' = kills (bg_jobs 3)
  | Exit st' status => "jobs" = "quit" /\ st' = bg_jobs 3 /\ status = 0
  | Waitfg _ _ | Execve _ => False
  end.
Proof.
  apply (builtins_leave_table strcmp_percent (bg_jobs 3) ("jobs" ++ nl) "jobs" [] false
           (Fork_parent 7)).
  apply list_elem_of_further, list_elem_of_here.
Defined.

(** X14.  The registration of a new job.  For a command that is not a
    built-in, with the pid [fork] returned and an empty slot in the table,
    the parent side of [eval] registers the child before it prints or
    waits: when [eval] returns (background) or enters [waitfg] (foreground),
    [getjobpid] finds the child with the state Background resp. Foreground,
    the old counter as jobId and the command line as typed; every other pid
    is found where it was and no signal has been sent. *)
Theorem eval_registers_job strcmp1 st cmd argv bg p :
  argv <> [] -> builtin_cmd strcmp1 st argv = None ->
  fork_fresh (jobs st) (Fork_parent p) ->
  (exists i j, jobs st !! i = Some j /\ pid j = 0) ->
  exists st' i,
    eval strcmp1 st cmd argv bg (Fork_parent p) =
      (if bg then Returned st' else Waitfg st' p) /\
    getjobpid (jobs st') p = Some i /\
    jobs st' !! i = Some (mk_job p (nextjid st) (if bg then BG else FG) cmd) /\
    (forall q, q <> p -> getjobpid (jobs st') q = getjobpid (jobs st) q) /\
    kills st' = kills st.
Proof.
  intros Hargv Hb [Hp Hfresh] (i0 & j0 & Hj0 & Hp0).
  assert (forall s, exists i,
            getjobpid (jobs (snd (addjob st p s cmd))) p = Some i /\
            jobs (snd (addjob st p s cmd)) !! i = Some (mk_job p (nextjid st) s cmd) /\
            (forall q, q <> p ->
               getjobpid (jobs (snd (addjob st p s cmd))) q = getjobpid (jobs st) q) /\
            kills (snd (addjob st p s cmd)) = kills st) as Hadd.
  { intros s.
    destruct (addjob_result st p s cmd) as [[Hfail _] | (Hok & _ & i & j & Hj & Hpj & Hjobs)].
    { exfalso. revert Hfail. unfold addjob. destruct (Z.ltb_spec p 1); [lia |].
      destruct (first_slot _ (jobs st)) eqn:Hf; [done |].
      apply first_slot_None in Hf.
      pose proof (Forall_lookup_1 _ _ _ _ Hf Hj0) as Hne. simpl in Hne. lia. }
    assert (i < length (jobs st))%nat as Hlt by (by eapply lookup_lt_Some).
    exists i. rewrite Hjobs. repeat split.
    - unfold getjobpid. destruct (Z.ltb_spec p 1); [lia |].
      apply first_slot_Some. exists (mk_job p (nextjid st) s cmd).
      split; [by apply list_lookup_insert_eq |]. split; [simpl; lia |].
      intros k y Hy Hk. rewrite list_lookup_insert_ne in Hy by lia.
      pose proof (Forall_lookup_1 _ _ _ _ Hfresh Hy) as Hne. simpl in *. lia.
    - by apply list_lookup_insert_eq.
    - intros q Hq. unfold getjobpid. destruct (Z.ltb_spec q 1); [done |].
      apply (first_slot_insert_same _ _ _ j); [done |]. cbn [pid]. rewrite Hpj.
      destruct (Z.eqb_spec p q), (Z.eqb_spec 0 q); first [done | exfalso; lia].
    - unfold addjob. destruct (p <? 1); [done |].
      destruct (first_slot _ (jobs st)); [by destruct (verbose st) | done]. }
  unfold eval. destruct argv as [|argv0 rest]; [done |]. rewrite Hb.
  destruct bg.
  - destruct (Hadd BG) as (i & H1 & H2 & H3 & H4).
    eexists _, i. split; [reflexivity |]. done.
  - destruct (Hadd FG) as (i & H1 & H2 & H3 & H4).
    eexists _, i. split; [reflexivity |]. done.
Qed.

Lemma eval_registers_job_witness :
  exists st' i,
    eval strcmp_percent (bg_jobs 3) sleep_fg ["/bin/sleep"; "5"] false (Fork_parent 7) =
      Waitfg st' 7 /\
    getjobpid (jobs st') 7 = Some i /\
    jobs st' !! i = Some (mk_job 7 (nextjid (bg_jobs 3)) FG sleep_fg) /\
    (forall q, q <> 7 -> getjobpid (jobs st') q = getjobpid (jobs (bg_jobs 3)) q) /\
    kills st' = kills (bg_jobs 3).
Proof.
  apply (eval_registers_job strcmp_percent (bg_jobs 3) sleep_fg ["/bin/sleep"; "5"] false 7).
  - discriminate.
  - reflexivity.
  - apply fork_fresh_check. vm_compute. reflexivity.
  - exists 3%nat, (mk_job 0 0 UNDEF EmptyString). split; reflexivity.
Defined.

(** X15.  JobIds are not unique among the active jobs: because [addjob]
    resets the counter to 1 when it passes [MAXJOBS], the shell reaches a
    state in which two different slots hold active jobs with the same
    jobId, and [getjobjid] resolves that jobId to the job in the lower
    slot only. *)
Theorem jobid_collision_reachable :
  exists st i1 i2 j1 j2,
    reachable (st, Reading) /\
    (i1 < i2)%nat /\ jobs st !! i1 = Some j1 /\ jobs st !! i2 = Some j2 /\
    active j1 /\ active j2 /\ pid j1 <> pid j2 /\ jid j1 = jid j2 /\
    getjobjid (jobs st) (jid j2) = Some i1.
Proof.
  exists two_jobs_one_jid, 0%nat, 15%nat, (mk_job 101 1 BG sleep_bg), (mk_job 201 1 BG sleep_bg).
  split; [| split; [lia |]; repeat (split; [done |]); reflexivity].
  apply reachable_spawns; [| by vm_compute].
  eapply reachable_step; [exact reachable_bg_jobs_15 |].
  right. apply (step_sigchld _ _ [(102, WIFEXITED 0)]). by vm_compute.
Qed.

(** ** The [jobs] listing *)

Lemma append_empty_r s : s ++ EmptyString = s.
Proof. induction s as [|a s IH]; [done |]. simpl. by rewrite IH. Qed.

Lemma concat_empty_cons x xs :
  String.concat EmptyString (x :: xs) = x ++ String.concat EmptyString xs.
Proof. destruct xs; simpl; [by rewrite append_empty_r | done]. Qed.

Lemma listjobs_lines_gen js : forall g : nat -> job_t -> string,
  Forall slot_ok js ->
  (forall i j, slot_ok j -> g i j = if decide (active j) then job_line j else EmptyString) ->
  String.concat EmptyString (imap g js)
    = String.concat EmptyString (job_line <$> filter active js).
Proof.
  induction js as [|x js IH]; intros g Hok Hg; [done |].
  apply Forall_cons in Hok as [Hx Hok].
  rewrite imap_cons, concat_empty_cons, filter_cons, (Hg 0%nat x Hx).
  rewrite (IH (g ∘ S) Hok) by (intros i j Hj; by apply Hg).
  destruct (decide (active x)); [| done].
  by rewrite fmap_cons, concat_empty_cons.
Qed.

(** X16.  On a table of well-shaped slots [listjobs] prints one line per
    active job, in slot order, each of the form
    [[jobId] (pid) <Running|Foreground|Stopped> commandLine] (Running for
    a Background job); empty slots print nothing, the internal-error text
    is never printed, and nothing but the output changes. *)
Theorem listjobs_lines st :
  Forall slot_ok (jobs st) ->
  listjobs st =
    mk_shell (jobs st) (nextjid st) (verbose st)
      (stdout st ++ String.concat EmptyString (job_line <$> filter active (jobs st)))
      (kills st).
Proof.
  intros Hok. unfold listjobs, printf. f_equal. f_equal.
  apply listjobs_lines_gen; [done |].
  intros i j Hj. unfold listjobs_line, job_line, active.
  destruct (Z.eqb_spec (pid j) 0) as [H0|H0].
  - by rewrite decide_False by (by intros ?).
  - rewrite decide_True by done.
    destruct Hj as [(? & _) | (_ & _ & Hs)]; [done |]. by destruct (state j).
Qed.

Lemma listjobs_lines_witness :
  listjobs stopped_5 =
    mk_shell (jobs stopped_5) (nextjid stopped_5) (verbose stopped_5)
      (stdout stopped_5
       ++ String.concat EmptyString (job_line <$> filter active (jobs stopped_5)))
      (kills stopped_5).
Proof.
  apply (listjobs_lines stopped_5).
  by apply (bool_decide_unpack _); vm_compute.
Defined.

(** The listing of a concrete table. *)
Example listjobs_stopped_5 :
  stdout (listjobs (mk_shell (jobs stopped_5) 2 false EmptyString []))
    = "[1] (5) Stopped /bin/sleep 5" ++ nl.
Proof. reflexivity. Qed.

(** ** The dispatcher: job ids *)

(** X17.  Provided the test of tsh.c:334 accepts the percent sign, an
    argument that is a percent sign followed by an [int] as the shell prints
    it is looked up as that jobId with [getjobjid]; when no job has it,
    exactly [%<n>: No such job] is printed and nothing else changes. *)
Theorem do_bgfg_printed_jobid strcmp1 st argv0 n rest :
  strcmp1 "%"%char = 0 ->
  INT_MIN <= n <= INT_MAX ->
  do_bgfg strcmp1 st (argv0 :: String "%"%char (fmt_d n) :: rest) =
    match getjobjid (jobs st) n with
    | Some _ => st
    | None =>
        mk_shell (jobs st) (nextjid st) (verbose st)
          (stdout st ++ String "%"%char (fmt_d n) ++ ": No such job" ++ nl) (kills st)
    end.
Proof.
  intros Hpct Hn. unfold do_bgfg.
  cbn [lookup list_lookup default from_option id char0 from1].
  change (isdigit "%"%char) with false. rewrite Hpct. cbn [orb negb Z.eqb].
  rewrite (atoi_fmt_d n Hn).
  destruct (getjobjid (jobs st) n); [by destruct (String.eqb _ _) | done].
Qed.

Lemma do_bgfg_printed_jobid_witness :
  strcmp_percent "%"%char = 0 /\ INT_MIN <= 7 <= INT_MAX /\
  do_bgfg strcmp_percent stopped_5 ["fg"; String "%"%char (fmt_d 7)] =
    match getjobjid (jobs stopped_5) 7 with
    | Some _ => stopped_5
    | None =>
        mk_shell (jobs stopped_5) (nextjid stopped_5) (verbose stopped_5)
          (stdout stopped_5 ++ String "%"%char (fmt_d 7) ++ ": No such job" ++ nl)
          (kills stopped_5)
    end.
Proof.
  assert (INT_MIN <= 7 <= INT_MAX) as Hn by (unfold INT_MIN, INT_MAX; lia).
  split; [reflexivity |]. split; [exact Hn |].
  exact (do_bgfg_printed_jobid strcmp_percent stopped_5 "fg" 7 [] eq_refl Hn).
Defined.

(** ** The command-line parser *)

Lemma append_assoc_s (a b c : string) : (a ++ b) ++ c = a ++ (b ++ c).
Proof. induction a as [|x a IH]; [done |]. simpl. by rewrite IH. Qed.

Lemma length_append_s (a b : string) :
  String.length (a ++ b) = (String.length a + String.length b)%nat.
Proof. induction a as [|x a IH]; [done |]. simpl. by rewrite IH. Qed.

Lemma lacks_app c a b : lacks c (a ++ b) = lacks c a && lacks c b.
Proof. induction a as [|x a IH]; [done |]. simpl. by rewrite IH, andb_assoc. Qed.

Lemma strchr_split w c rest :
  lacks c w = true -> strchr (w ++ String c rest) c = Some (w, rest).
Proof.
  induction w as [|a w IH]; simpl; intros H.
  - by rewrite Ascii.eqb_refl.
  - apply andb_prop in H as [Ha Hw]. apply negb_true_iff in Ha.
    by rewrite Ha, (IH Hw).
Qed.

Lemma strchr_lacks s c : lacks c s = true -> strchr s c = None.
Proof.
  induction s as [|a s IH]; simpl; [done |]. intros H.
  apply andb_prop in H as [Ha Hs]. apply negb_true_iff in Ha.
  by rewrite Ha, (IH Hs).
Qed.

(** The token [strchr] cuts off has no delimiter in it, and the rest is
    shorter than the text searched. *)
Lemma strchr_Some buf c arg rest :
  strchr buf c = Some (arg, rest) ->
  buf = arg ++ String c rest /\ lacks c arg = true /\
  (String.length rest < String.length buf)%nat.
Proof.
  revert arg. induction buf as [|a buf IH]; intros arg; simpl; [done |].
  destruct (Ascii.eqb_spec a c) as [->|Hne].
  - intros [= <- <-]. repeat split. lia.
  - intros ([arg' rest'] & Hs & [= -> ->])%fmap_Some. simpl.
    destruct (IH _ Hs) as (-> & Hl & Hlen). repeat split.
    + apply andb_true_intro. split; [| done]. apply negb_true_iff.
      by apply Ascii.eqb_neq.
    + simpl in *. lia.
Qed.

Lemma find_delim_plain a buf :
  a <> "'"%char -> find_delim (String a buf) = strchr (String a buf) " "%char.
Proof. intros Ha. by destruct a as [[] [] [] [] [] [] [] []]. Qed.

Lemma find_delim_length buf arg rest :
  find_delim buf = Some (arg, rest) -> (String.length rest < String.length buf)%nat.
Proof.
  destruct buf as [|a buf]; [done |].
  destruct (Ascii.eqb_spec a "'"%char) as [->|Hne].
  - cbn [find_delim]. intros (_ & _ & Hlen)%strchr_Some. simpl. lia.
  - rewrite find_delim_plain by done. by intros (_ & _ & Hlen)%strchr_Some.
Qed.

Lemma skip_blanks_length buf :
  (String.length (skip_blanks buf) <= String.length buf)%nat.
Proof.
  induction buf as [|a buf IH]; simpl; [done |].
  destruct (Ascii.eqb a " "%char); simpl; lia.
Qed.

Lemma skip_blanks_head buf :
  char0 (skip_blanks buf) <> " "%char.
Proof.
  induction buf as [|a buf IH]; simpl; [done |].
  destruct (Ascii.eqb_spec a " "%char); [done |]. done.
Qed.

(** The loop of [parseline] ends: as many loop tests as the text has
    characters, plus one, are enough. *)
Lemma parse_args_total fuel : forall buf,
  (String.length buf < fuel)%nat -> is_Some (parse_args fuel buf).
Proof.
  induction fuel as [|fuel IH]; intros buf Hlen; [lia |]. simpl.
  destruct (find_delim buf) as [[arg rest]|] eqn:Hf; [| by eexists].
  apply find_delim_length in Hf.
  pose proof (skip_blanks_length rest).
  destruct (IH (skip_blanks rest)) as [x ->]; [lia |]. by eexists.
Qed.

Lemma parse_args_mono fuel : forall fuel' buf x,
  parse_args fuel buf = Some x -> (fuel <= fuel')%nat -> parse_args fuel' buf = Some x.
Proof.
  induction fuel as [|fuel IH]; intros [|fuel'] buf x; simpl; try done; [lia |].
  destruct (find_delim buf) as [[arg rest]|]; [| done].
  intros (l & Hl & ->)%fmap_Some Hle. by rewrite (IH fuel' _ _ Hl) by lia.
Qed.

(** Whatever fuel gives a result gives the result of [parseline]'s fuel. *)
Lemma parse_args_any_fuel fuel buf x :
  parse_args fuel buf = Some x ->
  parse_args (S (String.length buf)) buf = Some x.
Proof.
  intros Hx. destruct (parse_args_total (S (String.length buf)) buf) as [y Hy]; [lia |].
  destruct (Nat.le_ge_cases fuel (S (String.length buf))) as [Hle|Hge].
  - by apply (parse_args_mono fuel).
  - pose proof (parse_args_mono _ _ _ _ Hy Hge). congruence.
Qed.

Lemma parse_args_S fuel buf :
  parse_args (S fuel) buf =
    match find_delim buf with
    | None => Some []
    | Some (arg, rest) => cons arg <$> parse_args fuel (skip_blanks rest)
    end.
Proof. done. Qed.

Lemma written_as_head r w rest :
  written_as r w ->
  skip_blanks (r ++ String " "%char rest) = r ++ String " "%char rest /\
  exists rest',
    find_delim (r ++ String " "%char rest) = Some (w, rest') /\
    skip_blanks rest' = skip_blanks rest.
Proof.
  intros [(Hne & Hlacks & Hq & ->) | (Hlacks & ->)].
  - destruct w as [|a w]; [done |]. cbn [char0] in Hq.
    assert (a <> " "%char) as Ha.
    { cbn [lacks] in Hlacks. apply andb_prop in Hlacks as [Ha _].
      apply negb_true_iff in Ha. by apply Ascii.eqb_neq. }
    split.
    + cbn [append skip_blanks]. by destruct (Ascii.eqb_spec a " "%char).
    + exists rest. split; [| done].
      change (String a w ++ String " "%char rest) with (String a (w ++ String " "%char rest)).
      rewrite find_delim_plain by done.
      by apply (strchr_split (String a w)).
  - split; [done |]. exists (String " "%char rest). split; [| done].
    cbn [append find_delim]. rewrite append_assoc_s. cbn [append].
    by apply strchr_split.
Qed.

Lemma parse_args_written rs ws tail :
  Forall2 written_as rs ws ->
  find_delim (skip_blanks tail) = None ->
  parse_args (S (length ws)) (skip_blanks (join_words rs ++ tail)) = Some ws.
Proof.
  intros Hw Htail. induction Hw as [|r w rs ws Hr _ IH].
  - cbn [join_words append length parse_args]. by rewrite Htail.
  - cbn [join_words]. rewrite !append_assoc_s. cbn [append].
    destruct (written_as_head r w (join_words rs ++ tail) Hr) as (-> & rest' & Hf & Hs).
    cbn [length]. rewrite parse_args_S, Hf, Hs, IH. done.
Qed.

Lemma set_last_blank_app x y :
  y <> EmptyString -> set_last_blank (x ++ y) = x ++ set_last_blank y.
Proof.
  intros Hy. induction x as [|a x IH]; [done |].
  cbn [append set_last_blank]. rewrite IH.
  destruct (x ++ y) eqn:Hxy; [| done].
  destruct x; [| done]. by destruct y.
Qed.

Lemma set_last_blank_length s : String.length (set_last_blank s) = String.length s.
Proof.
  induction s as [|a s IH]; [done |]. cbn [set_last_blank].
  destruct s; [done |]. cbn [String.length] in *. by rewrite IH.
Qed.

(** The core of the parser properties: a line that, once its last character
    is blanked, consists of written arguments and a rest in which no
    further argument ends. *)
Lemma parseline_written cmdline rs ws tail :
  (0 < String.length cmdline < MAXLINE)%nat ->
  set_last_blank cmdline = join_words rs ++ tail ->
  Forall2 written_as rs ws ->
  find_delim (skip_blanks tail) = None ->
  parseline cmdline =
    Some (match last ws with
          | Some a => if Ascii.eqb (char0 a) "&"%char
                      then (removelast ws, true) else (ws, false)
          | None => ([], true)
          end).
Proof.
  intros [Hpos Hmax] Hbuf Hw Htail. unfold parseline.
  destruct (Nat.eqb_spec (String.length cmdline) 0); [lia |].
  destruct (Nat.leb_spec MAXLINE (String.length cmdline)); [lia |].
  cbn [orb]. rewrite Hbuf.
  rewrite (parse_args_any_fuel _ _ _ (parse_args_written rs ws tail Hw Htail)).
  cbn [mbind option_bind].
  destruct (last ws) as [a|]; [by destruct (Ascii.eqb _ _) | done].
Qed.

Lemma concat_blank_join rs :
  rs <> [] -> String.concat " " rs ++ " " = join_words rs.
Proof.
  induction rs as [|r rs IH]; [done |]. intros _.
  destruct rs as [|r' rs].
  - cbn [String.concat join_words]. by rewrite append_empty_r.
  - change (String.concat " " (r :: r' :: rs)) with (r ++ " " ++ String.concat " " (r' :: rs)).
    cbn [join_words]. rewrite !append_assoc_s. by rewrite IH.
Qed.

(** X18.  Arguments written on one line, separated by single spaces and
    ended by a newline, each either plain (not empty, no space, no leading
    quote) or between single quotes (no single quote inside, spaces and the
    empty argument allowed), are returned by [parseline] as they were
    meant, the quotes removed.  If the last argument starts with [&],
    quoted or not, it is dropped and the return value asks for a background
    job; otherwise the return value asks for a foreground job. *)
Theorem parseline_written_arguments rs ws :
  rs <> [] ->
  Forall2 written_as rs ws ->
  (String.length (String.concat " " rs ++ nl) < MAXLINE)%nat ->
  parseline (String.concat " " rs ++ nl) =
    Some (match last ws with
          | Some a => if Ascii.eqb (char0 a) "&"%char
                      then (removelast ws, true) else (ws, false)
          | None => ([], true)
          end).
Proof.
  intros Hrs Hw Hlen.
  apply (parseline_written _ rs ws EmptyString); [| | done | done].
  - split; [| done]. rewrite length_append_s. cbn. lia.
  - rewrite set_last_blank_app by done. cbn [nl set_last_blank].
    by rewrite append_empty_r, concat_blank_join.
Qed.

Lemma parseline_written_arguments_witness :
  parseline (String.concat " " ["/bin/echo"; "'a  b'"; "''"; "&"] ++ nl) =
    Some (match last ["/bin/echo"; "a  b"; EmptyString; "&"] with
          | Some a => if Ascii.eqb (char0 a) "&"%char
                      then (removelast ["/bin/echo"; "a  b"; EmptyString; "&"], true)
                      else (["/bin/echo"; "a  b"; EmptyString; "&"], false)
          | None => ([], true)
          end).
Proof.
  apply (parseline_written_arguments ["/bin/echo"; "'a  b'"; "''"; "&"]
           ["/bin/echo"; "a  b"; EmptyString; "&"]).
  - discriminate.
  - do 4 (constructor; [first [ by left | by right ] |]). constructor.
  - vm_compute. lia.
Defined.

(** X19.  A single quote that is never closed makes [parseline] drop the
    rest of the line without any notice: the arguments before the quote are
    returned as if the line had ended there. *)
Theorem parseline_unterminated_quote rs ws s :
  Forall2 written_as rs ws ->
  lacks "'"%char s = true ->
  (String.length (join_words rs ++ String "'"%char (s ++ nl)) < MAXLINE)%nat ->
  parseline (join_words rs ++ String "'"%char (s ++ nl)) =
    Some (match last ws with
          | Some a => if Ascii.eqb (char0 a) "&"%char
                      then (removelast ws, true) else (ws, false)
          | None => ([], true)
          end).
Proof.
  intros Hw Hs Hlen.
  apply (parseline_written _ rs ws (String "'"%char (s ++ " "))); [| | done |].
  - split; [| done]. rewrite length_append_s. cbn. lia.
  - rewrite set_last_blank_app by done. f_equal.
    change (String "'"%char (s ++ nl)) with (String "'"%char s ++ nl).
    rewrite set_last_blank_app by done. done.
  - cbn [skip_blanks Ascii.eqb]. cbn. apply strchr_lacks.
    by rewrite lacks_app, Hs.
Qed.

Lemma parseline_unterminated_quote_witness :
  parseline (join_words ["/bin/echo"; "hi"] ++ String "'"%char ("a b c &" ++ nl)) =
    Some (match last ["/bin/echo"; "hi"] with
          | Some a => if Ascii.eqb (char0 a) "&"%char
                      then (removelast ["/bin/echo"; "hi"], true)
                      else (["/bin/echo"; "hi"], false)
          | None => ([], true)
          end).
Proof.
  apply (parseline_unterminated_quote ["/bin/echo"; "hi"] ["/bin/echo"; "hi"] "a b c &").
  - do 2 (constructor; [by left |]). constructor.
  - reflexivity.
  - vm_compute. lia.
Defined.

Lemma skip_blanks_blanks n s : skip_blanks (blanks n ++ s) = skip_blanks s.
Proof. induction n as [|n IH]; [done |]. exact IH. Qed.

Lemma blanks_length n : String.length (blanks n) = n.
Proof. induction n as [|n IH]; [done |]. simpl. by rewrite IH. Qed.

(** X20.  A line that has nothing but spaces before its last character (the
    newline, or any single character of a line that was cut) is a blank
    line: [parseline] blanks the last character, returns no argument and the
    value 1, and [eval] returns to the read loop without forking and with
    the shell state unchanged. *)
Theorem blank_line_is_ignored strcmp1 st n c fk :
  (n + 1 < MAXLINE)%nat ->
  parseline (blanks n ++ String c EmptyString) = Some ([], true) /\
  eval_cmdline strcmp1 st (blanks n ++ String c EmptyString) fk = Some (Returned st).
Proof.
  intros Hn.
  assert (parseline (blanks n ++ String c EmptyString) = Some ([], true)) as Hp.
  { apply (parseline_written _ [] [] (blanks n ++ " ")).
    - rewrite length_append_s, blanks_length. cbn [String.length]. lia.
    - by rewrite set_last_blank_app.
    - constructor.
    - by rewrite skip_blanks_blanks. }
  split; [done |]. unfold eval_cmdline. by rewrite Hp.
Qed.

Lemma blank_line_is_ignored_witness :
  parseline (blanks 3 ++ String "x"%char EmptyString) = Some ([], true) /\
  eval_cmdline strcmp_percent (bg_jobs 3) (blanks 3 ++ String "x"%char EmptyString)
    (Fork_parent 7) = Some (Returned (bg_jobs 3)).
Proof.
  apply (blank_line_is_ignored strcmp_percent (bg_jobs 3) 3 "x"%char (Fork_parent 7)).
  vm_compute. lia.
Defined.

Lemma lacks_set_last_blank c s :
  c <> " "%char -> lacks c s = true -> lacks c (set_last_blank s) = true.
Proof.
  intros Hc. induction s as [|a s IH]; [done |]. cbn [set_last_blank lacks].
  intros [Ha Hs]%andb_prop. destruct s as [|b s].
  - cbn [lacks]. apply andb_true_intro. split; [| done].
    apply negb_true_iff, Ascii.eqb_neq. congruence.
  - cbn [lacks]. apply andb_true_intro. split; [done |]. by apply IH.
Qed.

Lemma lacks_skip_blanks c s : lacks c s = true -> lacks c (skip_blanks s) = true.
Proof.
  induction s as [|a s IH]; [done |]. cbn [skip_blanks].
  destruct (Ascii.eqb a " "%char); [| done].
  cbn [lacks]. intros [_ Hs]%andb_prop. by apply IH.
Qed.

(** Without quotes, every argument the loop stores is a non-empty run of
    characters other than the space. *)
Lemma parse_args_unquoted fuel : forall buf argv,
  lacks "'"%char buf = true -> char0 buf <> " "%char ->
  parse_args fuel buf = Some argv ->
  Forall (fun a => a <> EmptyString /\ lacks " "%char a = true /\ lacks "'"%char a = true) argv.
Proof.
  induction fuel as [|fuel IH]; intros buf argv Hq Hb; [done |].
  rewrite parse_args_S. destruct buf as [|a buf].
  { cbn. by intros [= <-]. }
  assert (a <> "'"%char) as Ha.
  { cbn [lacks] in Hq. apply andb_prop in Hq as [Ha _].
    by apply negb_true_iff, Ascii.eqb_neq in Ha. }
  rewrite find_delim_plain by done.
  destruct (strchr (String a buf) " "%char) as [[arg rest]|] eqn:Hs; [| by intros [= <-]].
  intros (l & Hl & ->)%fmap_Some.
  apply strchr_Some in Hs as (Hbuf & Harg & _).
  rewrite Hbuf, lacks_app in Hq. apply andb_prop in Hq as [Hq1 Hq2].
  cbn [lacks] in Hq2. apply andb_prop in Hq2 as [_ Hq2].
  constructor.
  - split; [| done]. intros ->. cbn in Hbuf. injection Hbuf as -> _. by cbn in Hb.
  - apply (IH (skip_blanks rest)); [by apply lacks_skip_blanks | apply skip_blanks_head | done].
Qed.

Lemma Forall_removelast {A} (P : A -> Prop) l : Forall P l -> Forall P (removelast l).
Proof.
  induction 1 as [|x l Hx Hl IH]; [constructor |].
  cbn [removelast]. destruct l; [constructor | by constructor].
Qed.

(** X21.  [parseline] gives a result for every line of 1 to 1023
    characters (its loop ends).  When no argument is left the return value
    asks for a background job, so that [eval] must test for the empty
    argument vector first; and when the line has no single quote, every
    argument is a non-empty string without a space. *)
Theorem parseline_total cmdline :
  (0 < String.length cmdline < MAXLINE)%nat ->
  exists argv bg,
    parseline cmdline = Some (argv, bg) /\
    (argv = [] -> bg = true) /\
    (lacks "'"%char cmdline = true ->
       Forall (fun a => a <> EmptyString /\ lacks " "%char a = true) argv).
Proof.
  intros [Hpos Hmax]. unfold parseline.
  destruct (Nat.eqb_spec (String.length cmdline) 0); [lia |].
  destruct (Nat.leb_spec MAXLINE (String.length cmdline)); [lia |].
  cbn [orb].
  destruct (parse_args_total (S (String.length (skip_blanks (set_last_blank cmdline))))
              (skip_blanks (set_last_blank cmdline))) as [argv Hargv]; [lia |].
  rewrite Hargv. cbn [mbind option_bind].
  assert (lacks "'"%char cmdline = true ->
          Forall (fun a => a <> EmptyString /\ lacks " "%char a = true) argv) as Hshape.
  { intros Hq. eapply Forall_impl.
    - apply (parse_args_unquoted _ _ _
               (lacks_skip_blanks _ _ (lacks_set_last_blank "'"%char cmdline ltac:(done) Hq))
               (skip_blanks_head _) Hargv).
    - intros a (? & ? & _). done. }
  destruct (last argv) as [a|] eqn:Hlast.
  - destruct (Ascii.eqb (char0 a) "&"%char).
    + eexists _, _. split; [reflexivity |]. split; [done |].
      intros Hq. by apply Forall_removelast, Hshape.
    + eexists _, _. split; [reflexivity |]. split; [| done].
      intros ->. done.
  - eexists _, _. split; [reflexivity |]. split; [done |]. intros _. constructor.
Qed.

Lemma parseline_total_witness :
  exists argv bg,
    parseline ("fg %1" ++ nl) = Some (argv, bg) /\
    (argv = [] -> bg = true) /\
    (lacks "'"%char ("fg %1" ++ nl) = true ->
       Forall (fun a => a <> EmptyString /\ lacks " "%char a = true) argv).
Proof.
  apply (parseline_total ("fg %1" ++ nl)). vm_compute. lia.
Defined.

(** ** The signal-safe output helpers *)

Lemma sio_reverse_loop_spec fuel : forall i j (l : list ascii),
  0 <= i -> j < Z.of_nat (length l) -> (Z.to_nat (j - i + 1) < fuel)%nat ->
  exists l',
    sio_reverse_loop fuel i j l = Some l' /\ length l' = length l /\
    forall k : nat,
      l' !! k = if decide (i <= Z.of_nat k <= j)
                then l !! Z.to_nat (i + j - Z.of_nat k) else l !! k.
Proof.
  induction fuel as [|fuel IH]; intros i j l Hi Hj Hfuel; [lia |].
  cbn [sio_reverse_loop]. destruct (Z.ltb_spec i j) as [Hlt|Hge].
  - destruct (lookup_lt_is_Some_2 l (Z.to_nat i)) as [a Ha]; [lia |].
    destruct (lookup_lt_is_Some_2 l (Z.to_nat j)) as [b Hb]; [lia |].
    rewrite Ha, Hb.
    destruct (IH (i + 1) (j - 1) (<[Z.to_nat j := a]> (<[Z.to_nat i := b]> l)))
      as (l' & Hrun & Hlen & Hk); [lia | rewrite !length_insert; lia | lia |].
    exists l'. split; [done |]. split; [by rewrite Hlen, !length_insert |].
    intros k. rewrite Hk.
    destruct (decide (i + 1 <= Z.of_nat k <= j - 1)) as [Hin|Hout].
    + rewrite decide_True by lia.
      rewrite !list_lookup_insert_ne by lia. f_equal. lia.
    + destruct (decide (Z.of_nat k = i)) as [Hki|Hki].
      * rewrite decide_True by lia.
        rewrite list_lookup_insert_ne by lia.
        replace k with (Z.to_nat i) by lia.
        rewrite list_lookup_insert_eq by lia.
        rewrite <- Hb. f_equal. lia.
      * destruct (decide (Z.of_nat k = j)) as [Hkj|Hkj].
        -- rewrite decide_True by lia.
           replace k with (Z.to_nat j) by lia.
           rewrite list_lookup_insert_eq by (rewrite length_insert; lia).
           rewrite <- Ha. f_equal. lia.
        -- rewrite decide_False by lia.
           by rewrite !list_lookup_insert_ne by lia.
  - exists l. split; [done |]. split; [done |]. intros k.
    destruct (decide (i <= Z.of_nat k <= j)); [| done]. f_equal. lia.
Qed.

Lemma sio_reverse_reverse l : sio_reverse l = Some (reverse l).
Proof.
  unfold sio_reverse.
  destruct (sio_reverse_loop_spec (S (length l)) 0 (Z.of_nat (length l) - 1) l)
    as (l' & -> & Hlen & Hk); [lia.. |].
  f_equal. apply list_eq. intros k. rewrite Hk.
  destruct (decide (0 <= Z.of_nat k <= Z.of_nat (length l) - 1)) as [Hin|Hout].
  - rewrite reverse_lookup by lia. f_equal. lia.
  - rewrite !lookup_ge_None_2; [done | rewrite length_reverse; lia | lia].
Qed.

(** X22.  [sio_reverse] ends and turns the string around: the character at
    position [k] of the result is the one that was at position
    [length - 1 - k]; the empty string is left as it is. *)
Theorem sio_reverse_spec l :
  sio_reverse l = Some (reverse l).
Proof. apply sio_reverse_reverse. Qed.

Lemma code_sio_digit c : 0 <= c < 10 -> code (sio_digit c) = c + 48.
Proof.
  intros Hc. unfold code, sio_digit. destruct (Z.ltb_spec c 10); [| lia].
  rewrite N_ascii_embedding.
  - rewrite Z2N.id by (apply Z.mod_pos_bound; lia). apply Z.mod_small. lia.
  - apply N2Z.inj_lt. rewrite Z2N.id by (apply Z.mod_pos_bound; lia).
    change (Z.of_N 256) with 256. apply Z.mod_pos_bound. lia.
Qed.

Lemma isdigit_sio_digit c : 0 <= c < 10 -> isdigit (sio_digit c) = true.
Proof.
  intros Hc. unfold isdigit. rewrite code_sio_digit by done.
  apply andb_true_intro. split; lia.
Qed.

(** The loop of [sio_ltoa] in base 10 on a number that is not negative:
    it ends within the fuel and stores the decimal digits, last digit
    first. *)
Lemma sio_ltoa_loop_10 fuel : forall v,
  0 <= v < 2 ^ Z.of_nat fuel ->
  exists ds,
    sio_ltoa_loop (S fuel) v 10 = Some ds /\ ds <> [] /\
    Forall (fun d => isdigit d = true) ds /\ value_le ds = v.
Proof.
  induction fuel as [|fuel IH]; intros v Hv;
    pose proof (Z.rem_bound_pos v 10 ltac:(lia) ltac:(lia)) as Hrem;
    pose proof (Z.quot_rem' v 10) as Hqr;
    assert (0 <= Z.quot v 10) as Hq0 by (apply Z.quot_pos; lia).
  { change (2 ^ Z.of_nat 0) with 1 in Hv. assert (v = 0) as -> by lia.
    eexists. split; [reflexivity |]. split; [done |]. split; [| done].
    constructor; [done | constructor]. }
  change (sio_ltoa_loop (S (S fuel)) v 10) with
    (if Z.quot v 10 >? 0
     then cons (sio_digit (Z.rem v 10)) <$> sio_ltoa_loop (S fuel) (Z.quot v 10) 10
     else Some [sio_digit (Z.rem v 10)]).
  destruct (Z.gtb_spec (Z.quot v 10) 0) as [Hgt|Hle].
  - destruct (IH (Z.quot v 10)) as (ds & -> & Hne & Hdig & Hval).
    { split; [done |]. rewrite Nat2Z.inj_succ, Z.pow_succ_r in Hv by lia. lia. }
    eexists. split; [reflexivity |]. split; [done |]. split.
    + constructor; [by apply isdigit_sio_digit | done].
    + cbn [value_le]. rewrite code_sio_digit, Hval by done. lia.
  - eexists. split; [reflexivity |]. split; [done |]. split.
    + constructor; [by apply isdigit_sio_digit | constructor].
    + cbn [value_le]. rewrite code_sio_digit by done. lia.
Qed.

Lemma atoi_digits_app l1 : forall l2 acc,
  Forall (fun d => isdigit d = true) l1 ->
  atoi_digits (string_of_list_ascii (l1 ++ l2)) acc =
    atoi_digits (string_of_list_ascii l2) (atoi_digits (string_of_list_ascii l1) acc).
Proof.
  induction l1 as [|d l1 IH]; intros l2 acc Hd; [done |].
  apply Forall_cons in Hd as [Hd Hl1].
  cbn [app string_of_list_ascii atoi_digits]. rewrite Hd. by apply IH.
Qed.

Lemma atoi_digits_reverse ds :
  Forall (fun d => isdigit d = true) ds ->
  atoi_digits (string_of_list_ascii (reverse ds)) 0 = value_le ds.
Proof.
  induction 1 as [|d ds Hd Hds IH]; [done |].
  rewrite reverse_cons, atoi_digits_app by (by apply Forall_reverse).
  rewrite IH. cbn [string_of_list_ascii atoi_digits value_le]. rewrite Hd. lia.
Qed.

Lemma decimal_value_leading_digit a s :
  isdigit a = true -> decimal_value (String a s) = atoi_digits (String a s) 0.
Proof.
  intros Ha.
  destruct a as [[] [] [] [] [] [] [] []];
    try (vm_compute in Ha; discriminate Ha); reflexivity.
Qed.

Lemma all_digits_Forall l :
  Forall (fun d => isdigit d = true) l -> all_digits (string_of_list_ascii l) = true.
Proof.
  induction 1 as [|d l Hd _ IH]; [done |].
  cbn [string_of_list_ascii all_digits]. by rewrite Hd, IH.
Qed.

(** X23.  For a [long] that is not negative, [sio_ltoa] in base 10 ends
    and writes a non-empty string of decimal digits that writes the same
    number: [strtol] reads the number back, [atoi] reads back its conversion
    to [int], which is the number itself up to [INT_MAX]. *)
Theorem sio_ltoa_decimal v :
  0 <= v <= LONG_MAX ->
  exists s,
    sio_ltoa v 10 = Some s /\ digit_string s = true /\
    decimal_value s = v /\ strtol s = v /\
    atoi s = int_of_long v /\ (v <= INT_MAX -> atoi s = v).
Proof.
  intros [Hv Hmax]. unfold sio_ltoa. cbn [Z.eqb].
  destruct (sio_ltoa_loop_10 (S (Z.to_nat (Z.log2 (Z.abs v)))) v)
    as (ds & -> & Hne & Hdig & Hval).
  { split; [done |]. rewrite Z.abs_eq by done.
    rewrite Nat2Z.inj_succ, Z2Nat.id by apply Z.log2_nonneg.
    destruct (Z.eq_dec v 0) as [->|Hv0]; [done |].
    apply Z.log2_spec. lia. }
  cbn [mbind option_bind]. rewrite sio_reverse_reverse. cbn [fmap option_fmap option_map].
  eexists. split; [reflexivity |].
  assert (Forall (fun d => isdigit d = true) (reverse ds)) as Hrev by (by apply Forall_reverse).
  assert (decimal_value (string_of_list_ascii (reverse ds)) = v) as Hdec.
  { destruct (reverse ds) as [|a l] eqn:Hr.
    { apply (f_equal length) in Hr. rewrite length_reverse in Hr. by destruct ds. }
    cbn [string_of_list_ascii]. rewrite decimal_value_leading_digit by (by inversion Hrev).
    change (String a (string_of_list_ascii l)) with (string_of_list_ascii (a :: l)).
    by rewrite <- Hr, atoi_digits_reverse. }
  assert (strtol (string_of_list_ascii (reverse ds)) = v) as Hlong.
  { unfold strtol. rewrite Hdec. unfold LONG_MIN. unfold LONG_MAX in *. lia. }
  split; [| split; [done | split; [done | split]]].
  - destruct (reverse ds) as [|a l] eqn:Hr.
    { apply (f_equal length) in Hr. rewrite length_reverse in Hr. by destruct ds. }
    unfold digit_string. rewrite all_digits_Forall by done. done.
  - unfold atoi. by rewrite Hlong.
  - intros Hint. rewrite atoi_decimal_value; [done |].
    rewrite Hdec. unfold INT_MIN. lia.
Qed.

Lemma sio_ltoa_decimal_witness :
  0 <= 2026 <= LONG_MAX /\
  exists s,
    sio_ltoa 2026 10 = Some s /\ digit_string s = true /\
    decimal_value s = 2026 /\ strtol s = 2026 /\
    atoi s = int_of_long 2026 /\ (2026 <= INT_MAX -> atoi s = 2026).
Proof.
  assert (0 <= 2026 <= LONG_MAX) as Hv by (unfold LONG_MAX; lia).
  split; [exact Hv |]. exact (sio_ltoa_decimal 2026 Hv).
Defined.

(** X24.  [sio_ltoa] has no code for the sign.  For a negative number and
    a positive base its loop runs once and the result is a single
    character; in base 10 that character is one of ['()*+,-./0] and the
    string reads back with [atoi] as 0, not as the number. *)
Theorem sio_ltoa_negative v b :
  v < 0 -> 0 < b ->
  exists c,
    sio_ltoa v b = Some (String c EmptyString) /\
    (b = 10 -> 39 <= code c <= 48 /\ atoi (String c EmptyString) = 0).
Proof.
  intros Hv Hb. unfold sio_ltoa. destruct (Z.eqb_spec b 0); [lia |].
  cbn [sio_ltoa_loop].
  assert (Z.quot v b <= 0) as Hq.
  { replace v with (- (- v)) by lia. rewrite Z.quot_opp_l by lia.
    pose proof (Z.quot_pos (- v) b ltac:(lia) ltac:(lia)). lia. }
  destruct (Z.gtb_spec (Z.quot v b) 0); [lia |].
  cbn [mbind option_bind]. rewrite sio_reverse_reverse.
  exists (sio_digit (Z.rem v b)). split; [done |].
  intros ->.
  assert (-10 < Z.rem v 10 <= 0) as Hr.
  { replace v with (- (- v)) by lia. rewrite Z.rem_opp_l by lia.
    pose proof (Z.rem_bound_pos (- v) 10 ltac:(lia) ltac:(lia)). lia. }
  assert (Z.rem v 10 = 0 \/ Z.rem v 10 = -1 \/ Z.rem v 10 = -2 \/ Z.rem v 10 = -3
          \/ Z.rem v 10 = -4 \/ Z.rem v 10 = -5 \/ Z.rem v 10 = -6 \/ Z.rem v 10 = -7
          \/ Z.rem v 10 = -8 \/ Z.rem v 10 = -9) as Hcases by lia.
  destruct Hcases as [-> | [-> | [-> | [-> | [-> | [-> | [-> | [-> | [-> | ->]]]]]]]]];
    by vm_compute.
Qed.

Lemma sio_ltoa_negative_witness :
  exists c,
    sio_ltoa (-15) 10 = Some (String c EmptyString) /\
    (10 = 10 -> 39 <= code c <= 48 /\ atoi (String c EmptyString) = 0).
Proof. apply (sio_ltoa_negative (-15) 10); lia. Defined.

(** ** The table after [initjobs] and after a removal *)

Lemma first_slot_replicate test n x :
  first_slot test (replicate n x) = if test x then match n with O => None | S _ => Some 0%nat end
                                    else None.
Proof.
  induction n as [|n IH]; cbn [replicate first_slot]; [by destruct (test x) |].
  destruct (test x); [done |]. by rewrite IH.
Qed.

(** X25.  After [initjobs] the table is empty: no pid and no jobId is
    found, [fgpid] and [maxjid] are 0 and [listjobs] prints nothing; the
    first [addjob] with a pid of at least 1 succeeds, fills slot 0 and
    assigns the jobId 1. *)
Theorem initjobs_empty v p s cmd :
  getjobpid initjobs p = None /\ getjobjid initjobs p = None /\ pid2jid initjobs p = 0 /\
  fgpid initjobs = 0 /\ maxjid initjobs = 0 /\
  stdout (listjobs (init_shell v)) = EmptyString /\
  (1 <= p ->
   fst (addjob (init_shell v) p s cmd) = true /\
   jobs (snd (addjob (init_shell v) p s cmd)) = <[0%nat := mk_job p 1 s cmd]> initjobs).
Proof.
  assert (1 <= p -> first_slot (fun j => pid j =? p) initjobs = None) as Hpid.
  { intros Hp. unfold initjobs. rewrite first_slot_replicate. cbn [clearjob pid].
    by destruct (Z.eqb_spec 0 p); [lia |]. }
  assert (1 <= p -> first_slot (fun j => jid j =? p) initjobs = None) as Hjid.
  { intros Hp. unfold initjobs. rewrite first_slot_replicate. cbn [clearjob jid].
    by destruct (Z.eqb_spec 0 p); [lia |]. }
  split. { unfold getjobpid. destruct (Z.ltb_spec p 1); [done | by apply Hpid]. }
  split. { unfold getjobjid. destruct (Z.ltb_spec p 1); [done | by apply Hjid]. }
  split. { unfold pid2jid. destruct (Z.ltb_spec p 1); [done | by rewrite Hpid]. }
  split; [reflexivity |]. split; [reflexivity |]. split; [by destruct v |].
  intros Hp. unfold addjob. destruct (Z.ltb_spec p 1); [lia |].
  cbn [init_shell jobs].
  change (first_slot (fun j => pid j =? 0) initjobs) with (Some 0%nat).
  by destruct v.
Qed.

Lemma initjobs_empty_witness :
  fst (addjob (init_shell true) 4242 FG sleep_fg) = true /\
  jobs (snd (addjob (init_shell true) 4242 FG sleep_fg))
    = <[0%nat := mk_job 4242 1 FG sleep_fg]> initjobs.
Proof.
  apply (initjobs_empty true 4242 FG sleep_fg). lia.
Defined.

Lemma addjob_jid_success st q s cmd k :
  1 <= q -> first_slot (fun j => pid j =? 0) (jobs st) = Some k ->
  fst (addjob st q s cmd) = true /\ addjob_jid st q s cmd = Some (nextjid st).
Proof.
  intros Hq Hf. pose proof (first_slot_lt _ _ _ Hf) as Hlt.
  unfold addjob_jid, addjob. destruct (Z.ltb_spec q 1); [lia |]. rewrite Hf.
  destruct (verbose st); simpl; by rewrite list_lookup_insert_eq.
Qed.

(** X26.  The job added right after a successful removal finds a slot and
    gets a fresh jobId: in a well-shaped state, after [deletejob] has
    removed a job, [addjob] with a pid of at least 1 succeeds and assigns
    [maxjid + 1], which is larger than the jobId of every slot. *)
Theorem addjob_after_deletejob st p q s cmd :
  wf st -> fst (deletejob st p) = true -> 1 <= q ->
  fst (addjob (snd (deletejob st p)) q s cmd) = true /\
  addjob_jid (snd (deletejob st p)) q s cmd = Some (maxjid (jobs (snd (deletejob st p))) + 1) /\
  forall i j, jobs (snd (deletejob st p)) !! i = Some j ->
    jid j < maxjid (jobs (snd (deletejob st p))) + 1.
Proof.
  intros Hwf Hdel Hq.
  assert (exists i j, jobs st !! i = Some j /\
            snd (deletejob st p) =
              set_nextjid (set_jobs st (<[i := clearjob j]> (jobs st)))
                          (maxjid (<[i := clearjob j]> (jobs st)) + 1))
    as (i & j & Hj & Hst).
  { revert Hdel. unfold deletejob. destruct (p <? 1); [done |].
    destruct (first_slot _ (jobs st)) as [i|] eqn:Hf; [| done]. intros _.
    apply first_slot_Some in Hf as (j & Hj & _).
    exists i, j. split; [done |]. cbn [snd]. by rewrite (alter_as_insert _ _ _ _ Hj). }
  rewrite Hst. cbn [jobs set_nextjid set_jobs].
  assert (i < length (jobs st))%nat as Hlt by (by eapply lookup_lt_Some).
  destruct (first_slot (fun y => pid y =? 0) (<[i := clearjob j]> (jobs st))) as [k|] eqn:Hf.
  2:{ apply first_slot_None in Hf.
      assert (<[i := clearjob j]> (jobs st) !! i = Some (clearjob j)) as Hi
        by (by apply list_lookup_insert_eq).
      by pose proof (Forall_lookup_1 _ _ _ _ Hf Hi). }
  pose proof (first_slot_lt _ _ _ Hf) as Hk.
  destruct (addjob_jid_success
              (set_nextjid (set_jobs st (<[i := clearjob j]> (jobs st)))
                           (maxjid (<[i := clearjob j]> (jobs st)) + 1)) q s cmd k Hq Hf)
    as [Hok Hjid].
  split; [done |]. split; [done |].
  intros i' j' Hj'.
  pose proof (proj1 (maxjid_bounds (<[i := clearjob j]> (jobs st))) i' j' Hj'). lia.
Qed.

Lemma addjob_after_deletejob_witness :
  fst (addjob (snd (deletejob (bg_jobs 16) 103)) 300 BG sleep_bg) = true /\
  addjob_jid (snd (deletejob (bg_jobs 16) 103)) 300 BG sleep_bg
    = Some (maxjid (jobs (snd (deletejob (bg_jobs 16) 103))) + 1) /\
  forall i j, jobs (snd (deletejob (bg_jobs 16) 103)) !! i = Some j ->
    jid j < maxjid (jobs (snd (deletejob (bg_jobs 16) 103))) + 1.
Proof.
  apply (addjob_after_deletejob (bg_jobs 16) 103 300 BG sleep_bg).
  - wf_by_computation.
  - reflexivity.
  - lia.
Defined.
